(** * PyFME trimmer: steady-state flight trim

    A shallow embedding of [src/pyfme/utils/trimmer.py] and the properties
    of its kinematic closure functions, its residual function and the trim
    solver built on [scipy.optimize.least_squares].

    Numbers.  The module is embedded on two kinds of numbers.  On the real
    numbers [R] of the Standard Library stand the formulas, the residual
    function and the solver: what the code computes in exact arithmetic.
    Rounding, signed zeros, NaN and overflow are outside this model; what
    it keeps of Python's arithmetic is its partiality: [math.sqrt] raises
    [ValueError] on a negative argument and [/] raises
    [ZeroDivisionError] on a zero divisor.  On IEEE 754 doubles, in
    [Binary64], stand the closure functions and the angular velocity once
    more, with rounding, NaN, the infinities and the exceptions of
    CPython: what depends on the bits of a result, on the values that are
    no numbers, and on which call raises.  The operands of the divisions
    are Python floats: the functions of [math] return such, and [TAS],
    [gamma] and [turn_rate] are taken to be Python numbers, as the
    defaults of the solver are.

    Effects.  The code raises exceptions, emits warnings through
    [warnings.warn] and hands its residual function to the external
    optimizer.  These are the constructors of the program type [prog].

    The anemometry functions of [src/pyfme/utils/anemometry.py] and the
    ball of [src/pyfme/ball/ball.py] are embedded after the trimmer, on the
    same numbers and in the same program type. *)

From Stdlib Require Import Floats.
From Stdlib Require Import Reals Lra List String ZArith Bool.
From Stdlib Require Import Lia.
Import ListNotations.

#[local] Set Warnings "-inexact-float".

Local Open Scope R_scope.

(** ** Exceptions and warnings *)

(** The exceptions the module can raise by itself: they are Python's own.
    [ValueError], [ZeroDivisionError] and [OverflowError] carry the
    interpreter's message, [UnboundLocalError] the name of the local
    variable that was read. *)
Inductive exn : Type :=
| ValueError (msg : string)
| ZeroDivisionError (msg : string)
| OverflowError (msg : string)
| UnboundLocalError (var : string).

(** The class name of an exception, as [type(e).__name__] gives it. *)
Definition exn_class (e : exn) : string :=
  match e with
  | ValueError _ => "ValueError"
  | ZeroDivisionError _ => "ZeroDivisionError"
  | OverflowError _ => "OverflowError"
  | UnboundLocalError _ => "UnboundLocalError"
  end.

(** What an exception tells its handler: [str(e)]. *)
Definition exn_message (e : exn) : string :=
  match e with
  | ValueError msg => msg
  | ZeroDivisionError msg => msg
  | OverflowError msg => msg
  | UnboundLocalError var =>
      String.append "local variable '"
        (String.append var "' referenced before assignment")
  end.

Definition math_domain_error : exn := ValueError "math domain error".
Definition float_division_by_zero : exn :=
  ZeroDivisionError "float division by zero".

(** Categories of [warnings.warn]: the default is [UserWarning]. *)
Inductive warning_category : Type := UserWarning | RuntimeWarning.

Record warning : Type := mkWarning {
  w_message : string;
  w_category : warning_category
}.

(** ** Data *)

(** The six unknowns of the optimisation, [trimmed_params[0..5]]. *)
Record TrimVariables : Type := mkTrimVariables {
  tv_alpha : R;
  tv_beta : R;
  tv_delta_e : R;
  tv_delta_ail : R;
  tv_delta_r : R;
  tv_delta_t : R
}.

(** What [least_squares] returns, restricted to the keys the trimmer
    reads: [results['x']], [results['fun']], [results['cost']]. *)
Record OptimizeResult : Type := mkOptimizeResult {
  res_x : TrimVariables;
  res_fun : list R;
  res_cost : R
}.

(** ** Programs *)

(** A program returns, raises, warns and goes on, or calls the optimizer
    with a residual function, an initial guess, a verbosity and bounds, and
    goes on with its result. *)
Inductive prog (A : Type) : Type :=
| Ret (a : A)
| Raise (e : exn)
| Warn (w : warning) (k : prog A)
| LeastSquares (f : TrimVariables -> prog (list R))
               (x0 : TrimVariables) (verbose : Z)
               (bounds : TrimVariables * TrimVariables)
               (k : OptimizeResult -> prog A).

Arguments Ret {A} a.
Arguments Raise {A} e.
Arguments Warn {A} w k.
Arguments LeastSquares {A} f x0 verbose bounds k.

Fixpoint bind {A B : Type} (p : prog A) (g : A -> prog B) : prog B :=
  match p with
  | Ret a => g a
  | Raise e => Raise e
  | Warn w k => Warn w (bind k g)
  | LeastSquares f x0 v b k => LeastSquares f x0 v b (fun r => bind (k r) g)
  end.

Declare Scope prog_scope.
Delimit Scope prog_scope with prog.
Notation "x <- p ;; q" := (bind p (fun x => q))
  (at level 61, p at next level, right associativity) : prog_scope.
Notation "p ;;; q" := (bind p (fun _ => q))
  (at level 61, right associativity) : prog_scope.
Local Open Scope prog_scope.

(** [warn(message, category)] *)
Definition warn (msg : string) (c : warning_category) : prog unit :=
  Warn (mkWarning msg c) (Ret tt).

(** A program without effect: it returns or raises at once. *)
Definition effect_free {A : Type} (p : prog A) : Prop :=
  match p with
  | Ret _ | Raise _ => True
  | Warn _ _ | LeastSquares _ _ _ _ _ => False
  end.

(** ** Python's arithmetic on floats *)

Definition Rltb (x y : R) : bool := if Rlt_dec x y then true else false.
Definition Rgtb (x y : R) : bool := Rltb y x.

(** [x / y] *)
Definition py_div (x y : R) : prog R :=
  if Req_dec_T y 0 then Raise float_division_by_zero else Ret (x / y).

(** [math.sqrt(x)] *)
Definition py_sqrt (x : R) : prog R :=
  if Rlt_dec x 0 then Raise math_domain_error else Ret (sqrt x).

(** [np.sign(x)] *)
Definition np_sign (x : R) : R :=
  if Rlt_dec x 0 then -1 else if Rlt_dec 0 x then 1 else 0.

(** ** The kinematic closure functions *)

(** [turn_coord_cons(turn_rate, alpha, beta, TAS, gamma=0)]: phi for a
    coordinated turn. *)
Definition turn_coord_cons (turn_rate alpha beta TAS gamma : R) : prog R :=
  let g0 := 9.81 in
  let G := turn_rate * TAS / g0 in
  if Rlt_dec (Rabs gamma) 1e-8 then
    phi <- py_div (G * cos beta) (cos alpha - G * sin alpha * sin beta) ;;
    Ret (atan phi)
  else
    let a := 1 - G * tan alpha * sin beta in
    b <- py_div (sin gamma) (cos beta) ;;
    let c := 1 + G ^ 2 * cos beta ^ 2 in
    sq <- py_sqrt (c * (1 - b ^ 2) + G ^ 2 * sin beta ^ 2) ;;
    let num := (a - b ^ 2) + b * tan alpha * sq in
    let den := a ^ 2 - b ^ 2 * (1 + c * tan alpha ^ 2) in
    t <- py_div (G * cos beta) (cos alpha) ;;
    phi <- py_div (t * num) den ;;
    Ret (atan phi).

(** [turn_coord_cons_horizontal_and_small_beta(turn_rate, alpha, TAS)] *)
Definition turn_coord_cons_horizontal_and_small_beta
    (turn_rate alpha TAS : R) : prog R :=
  let g0 := 9.81 in
  let G := turn_rate * TAS / g0 in
  phi <- py_div G (cos alpha) ;;
  Ret (atan phi).

(** [rate_of_climb_cons(gamma, alpha, beta, phi)]: theta for the given
    rate of climb, wind angles and roll angle. *)
Definition rate_of_climb_cons (gamma alpha beta phi : R) : prog R :=
  let a := cos alpha * cos beta in
  let b := sin phi * sin beta + cos phi * sin alpha * cos beta in
  sq <- py_sqrt (a ^ 2 - sin gamma ^ 2 + b ^ 2) ;;
  theta <- py_div (a * b + sin gamma * sq) (a ^ 2 - sin gamma ^ 2) ;;
  Ret (atan theta).

(** ** The residual function and the trim solver *)

(** Arrays ([np.array]) are lists of reals. *)
Definition array : Type := list R.

(** A rigid-body dynamics implementation,
    [dynamic_eqs(time, vel, mass, inertia, forces, moments)]. *)
Definition dynamics : Type :=
  R -> array -> R -> list array -> array -> array -> array.

(** The [aircraft] object: the two methods the trimmer calls. *)
Record Aircraft : Type := mkAircraft {
  get_forces_and_moments :
    R -> R -> R -> R -> R -> R -> R -> R -> R -> array -> array * array;
  mass_and_inertial_data : R * list array
}.

(** The tuple [steady_state_flight_trim] returns. *)
Record TrimResult : Type := mkTrimResult {
  tr_lin_vel : array;
  tr_ang_vel : array;
  tr_theta : R;
  tr_phi : R;
  tr_alpha : R;
  tr_beta : R;
  tr_control_vector : R * R * R * R
}.

(** Reading a local variable: unbound, it raises [UnboundLocalError]. *)
Definition read_local {A : Type} (name : string) (v : option A) : prog A :=
  match v with
  | Some a => Ret a
  | None => Raise (UnboundLocalError name)
  end.

(** [any(abs(fun) > bound)] *)
Definition any_abs_gt (v : array) (bound : R) : bool :=
  existsb (fun x => Rgtb (Rabs x) bound) v.

(** The initial guess of the solver, from the signs of [gamma] and
    [turn_rate]. *)
Definition initial_guess (gamma turn_rate : R) : TrimVariables :=
  let alpha_0 := 0.05 * np_sign gamma in
  let betha_0 := 0.001 * np_sign turn_rate in
  let delta_e_0 := 0.05 in
  let delta_ail_0 := 0.01 * np_sign turn_rate in
  let delta_r_0 := 0.01 * np_sign turn_rate in
  let delta_t_0 := 0.5 in
  mkTrimVariables alpha_0 betha_0 delta_e_0 delta_ail_0 delta_r_0 delta_t_0.

Definition lower_bounds : TrimVariables :=
  mkTrimVariables (-1) (-0.5) (-1) (-1) (-1) 0.
Definition upper_bounds : TrimVariables :=
  mkTrimVariables 1 0.5 1 1 1 1.

Section Trimmer.

(** The collaborators imported from the rest of the package:
    [pyfme.utils.coordinates.wind2body], [pyfme.environment.isa.atm]
    (which returns temperature, pressure, density and speed of sound) and
    [pyfme.models.euler_flat_earth.linear_and_angular_momentum_eqs]. *)
Variable wind2body : R * R * R -> R -> R -> array.
Variable atm : R -> R * R * R * R.
Variable linear_and_angular_momentum_eqs : dynamics.

(** [func(trimmed_params, h, TAS, gamma, turn_rate, aircraft, dynamic_eqs)]:
    the function to optimize. *)
Definition func (trimmed_params : TrimVariables) (h TAS gamma turn_rate : R)
    (aircraft : Aircraft) (dynamic_eqs : dynamics) : prog array :=
  let alpha := tv_alpha trimmed_params in
  let beta := tv_beta trimmed_params in
  let delta_e := tv_delta_e trimmed_params in
  let delta_ail := tv_delta_ail trimmed_params in
  let delta_r := tv_delta_r trimmed_params in
  let delta_t := tv_delta_t trimmed_params in
  phi <- (if Rlt_dec (Rabs turn_rate) 1e-8 then Ret 0
          else turn_coord_cons turn_rate alpha beta TAS gamma) ;;
  theta <- rate_of_climb_cons gamma alpha beta phi ;;
  let p := (- turn_rate) * sin theta in
  let q := turn_rate * sin phi * cos theta in
  let r := turn_rate * cos theta * sin phi in
  let ang_vel := [p; q; r] in
  let lin_vel := wind2body (TAS, 0, 0) alpha beta in
  let attitude := [theta; phi; 0] in
  let '(_, _, rho, _) := atm h in
  let '(forces, moments) :=
    get_forces_and_moments aircraft TAS rho alpha beta delta_e 0 delta_ail
      delta_r delta_t attitude in
  let '(mass, inertia) := mass_and_inertial_data aircraft in
  let vel := lin_vel ++ ang_vel in
  let output := dynamic_eqs 0 vel mass inertia forces moments in
  Ret output.

(** [steady_state_flight_trim(aircraft, h, TAS, gamma=0, turn_rate=0,
    dyn_eqs=None, verbose=0)].  The local [dynamic_eqs] is bound on the
    [dyn_eqs is None] branch only; it is read when [args] is built. *)
Definition steady_state_flight_trim (aircraft : Aircraft)
    (h TAS gamma turn_rate : R) (dyn_eqs : option dynamics) (verbose : Z)
    : prog TrimResult :=
  let dynamic_eqs : option dynamics :=
    match dyn_eqs with
    | None => Some linear_and_angular_momentum_eqs
    | Some _ => None
    end in
  let initial_guess := initial_guess gamma turn_rate in
  dynamic_eqs <- read_local "dynamic_eqs" dynamic_eqs ;;
  results <- LeastSquares
               (fun x => func x h TAS gamma turn_rate aircraft dynamic_eqs)
               initial_guess verbose (lower_bounds, upper_bounds) Ret ;;
  let trimmed_params := res_x results in
  let fun_ := res_fun results in
  let cost := res_cost results in
  (if Rgtb cost 1e-7 || any_abs_gt fun_ 1e-3 then
     warn "Trim process did not converge" RuntimeWarning ;;;
     if Rgtb (tv_delta_t trimmed_params) 0.99 then
       warn "Probably not enough power for demanded conditions" UserWarning
     else Ret tt
   else Ret tt) ;;;
  let alpha := tv_alpha trimmed_params in
  let beta := tv_beta trimmed_params in
  let delta_e := tv_delta_e trimmed_params in
  let delta_ail := tv_delta_ail trimmed_params in
  let delta_r := tv_delta_r trimmed_params in
  let delta_t := tv_delta_t trimmed_params in
  let control_vector := (delta_e, delta_ail, delta_r, delta_t) in
  phi <- (if Rlt_dec (Rabs turn_rate) 1e-8 then Ret 0
          else turn_coord_cons turn_rate alpha beta TAS gamma) ;;
  theta <- rate_of_climb_cons gamma alpha beta phi ;;
  let p := (- turn_rate) * sin theta in
  let q := turn_rate * sin phi * cos theta in
  let r := turn_rate * cos theta * sin phi in
  let ang_vel := [p; q; r] in
  let lin_vel := wind2body (TAS, 0, 0) alpha beta in
  Ret (mkTrimResult lin_vel ang_vel theta phi alpha beta control_vector).

(** The end of [steady_state_flight_trim], from the optimizer's result
    [results] on: the warnings apart, the state is reconstructed from the
    trimmed parameters. *)
Definition reconstruct (TAS gamma turn_rate : R) (results : OptimizeResult)
    : prog TrimResult :=
  let trimmed_params := res_x results in
  let alpha := tv_alpha trimmed_params in
  let beta := tv_beta trimmed_params in
  let delta_e := tv_delta_e trimmed_params in
  let delta_ail := tv_delta_ail trimmed_params in
  let delta_r := tv_delta_r trimmed_params in
  let delta_t := tv_delta_t trimmed_params in
  let control_vector := (delta_e, delta_ail, delta_r, delta_t) in
  phi <- (if Rlt_dec (Rabs turn_rate) 1e-8 then Ret 0
          else turn_coord_cons turn_rate alpha beta TAS gamma) ;;
  theta <- rate_of_climb_cons gamma alpha beta phi ;;
  let p := (- turn_rate) * sin theta in
  let q := turn_rate * sin phi * cos theta in
  let r := turn_rate * cos theta * sin phi in
  let ang_vel := [p; q; r] in
  let lin_vel := wind2body (TAS, 0, 0) alpha beta in
  Ret (mkTrimResult lin_vel ang_vel theta phi alpha beta control_vector).

(** The warnings of [steady_state_flight_trim] on the optimizer's result. *)
Definition diagnose (results : OptimizeResult) : prog unit :=
  let trimmed_params := res_x results in
  let fun_ := res_fun results in
  let cost := res_cost results in
  if Rgtb cost 1e-7 || any_abs_gt fun_ 1e-3 then
    warn "Trim process did not converge" RuntimeWarning ;;;
    if Rgtb (tv_delta_t trimmed_params) 0.99 then
      warn "Probably not enough power for demanded conditions" UserWarning
    else Ret tt
  else Ret tt.

End Trimmer.

(** ** Running a program *)

(** The optimizer, [scipy.optimize.least_squares], is outside the package:
    it is given the residual function, the initial guess, the verbosity and
    the bounds, and returns a result or lets an exception through. *)
Definition optimizer : Type :=
  (TrimVariables -> exn + array) -> TrimVariables -> Z ->
  TrimVariables * TrimVariables -> exn + OptimizeResult.

(** [run ls p ws] runs [p] with the optimizer [ls], after the warnings
    [ws]: it gives the outcome and the warnings emitted so far.  The
    residual function handed to the optimizer is run for its outcome. *)
Fixpoint run {A : Type} (ls : optimizer) (p : prog A) (ws : list warning)
    : (exn + A) * list warning :=
  match p with
  | Ret a => (inr a, ws)
  | Raise e => (inl e, ws)
  | Warn w k => run ls k (ws ++ [w])
  | LeastSquares f x0 v b k =>
      match ls (fun x => fst (run ls (f x) [])) x0 v b with
      | inl e => (inl e, ws)
      | inr r => run ls (k r) ws
      end
  end.

(** ** Definitions for the statements *)

(** The two warnings of the solver. *)
Definition convergence_warning : warning :=
  mkWarning "Trim process did not converge" RuntimeWarning.
Definition power_warning : warning :=
  mkWarning "Probably not enough power for demanded conditions" UserWarning.

(** The convergence condition: the final cost is above 1e-7 or a component
    of the residual is above 1e-3 in magnitude. *)
Definition not_converged (r : OptimizeResult) : Prop :=
  res_cost r > 1e-7 \/ Exists (fun x => Rabs x > 1e-3) (res_fun r).

(** The closed form the specification gives for the general branch of the
    turn coordination, in its words: a, b, c, sq, num and den, and
    phi = atan(G cos(beta)/cos(alpha) . num/den). *)
Definition spec_turn_coordination_general
    (turn_rate alpha beta TAS gamma : R) : R :=
  let G := turn_rate * TAS / 9.81 in
  let a := 1 - G * tan alpha * sin beta in
  let b := sin gamma / cos beta in
  let c := 1 + G² * (cos beta)² in
  let sq := sqrt (c * (1 - b²) + G² * (sin beta)²) in
  let num := (a - b²) + b * tan alpha * sq in
  let den := a² - b² * (1 + c * (tan alpha)²) in
  atan (G * cos beta / cos alpha * (num / den)).

(** The inputs at which a formula of [turn_coord_cons] leaves its domain:
    a divisor is zero or the argument of the square root is negative. *)
Definition turn_coord_domain_violation
    (turn_rate alpha beta TAS gamma : R) : Prop :=
  let G := turn_rate * TAS / 9.81 in
  if Rlt_dec (Rabs gamma) 1e-8 then
    cos alpha - G * sin alpha * sin beta = 0
  else
    let a := 1 - G * tan alpha * sin beta in
    let b := sin gamma / cos beta in
    let c := 1 + G ^ 2 * cos beta ^ 2 in
    cos beta = 0 \/
    c * (1 - b ^ 2) + G ^ 2 * sin beta ^ 2 < 0 \/
    cos alpha = 0 \/
    a ^ 2 - b ^ 2 * (1 + c * tan alpha ^ 2) = 0.

(** The same for [rate_of_climb_cons]. *)
Definition rate_of_climb_domain_violation (gamma alpha beta phi : R) : Prop :=
  let a := cos alpha * cos beta in
  let b := sin phi * sin beta + cos phi * sin alpha * cos beta in
  a ^ 2 - sin gamma ^ 2 + b ^ 2 < 0 \/ a ^ 2 - sin gamma ^ 2 = 0.

(** ** Sample collaborators

    Stand-ins for the collaborators that are not part of the module, to run
    the solver on concrete inputs: a rotation that leaves the vector as it
    is, the atmosphere at sea level, an aircraft whose only force is the
    thrust deficit [delta_t - 1], and dynamics whose derivative is the
    forces and moments themselves. *)
Definition example_wind2body (v : R * R * R) (alpha beta : R) : array :=
  let '(x, y, z) := v in [x; y; z].

Definition example_atm (h : R) : R * R * R * R :=
  (288.15, 101325, 1.225, 340.29).

Definition example_dynamics : dynamics :=
  fun _ _ _ _ forces moments => forces ++ moments.

Definition example_aircraft : Aircraft :=
  mkAircraft
    (fun TAS rho alpha beta delta_e delta_e_trim delta_ail delta_r delta_t
         attitude => ([delta_t - 1; 0; 0], [0; 0; 0]))
    (1, [[1; 0; 0]; [0; 1; 0]; [0; 0; 1]]).

(** An optimizer run that ends at [xstar]: as [least_squares] documents its
    result, [fun] is the residual at [x] and [cost] half its squared
    norm. *)
Definition terminate_at (xstar : TrimVariables) : optimizer :=
  fun f x0 verbose bounds =>
    match f xstar with
    | inl e => inl e
    | inr fx =>
        inr (mkOptimizeResult xstar fx
               (0.5 * fold_right (fun y s => y ^ 2 + s) 0 fx))
    end.

(** Level flight at full throttle. *)
Definition full_throttle : TrimVariables := mkTrimVariables 0 0 0 0 0 1.

(** ** The box of the optimizer *)

(** [x] lies between the bounds [lb] and [ub], component by component, as
    [least_squares] keeps its iterates. *)
Definition within_bounds (lb ub x : TrimVariables) : Prop :=
  tv_alpha lb <= tv_alpha x <= tv_alpha ub /\
  tv_beta lb <= tv_beta x <= tv_beta ub /\
  tv_delta_e lb <= tv_delta_e x <= tv_delta_e ub /\
  tv_delta_ail lb <= tv_delta_ail x <= tv_delta_ail ub /\
  tv_delta_r lb <= tv_delta_r x <= tv_delta_r ub /\
  tv_delta_t lb <= tv_delta_t x <= tv_delta_t ub.

(** An optimizer run that ends at [xstar] and reports the residual [fx]
    and the cost [cost]. *)
Definition report_at (xstar : TrimVariables) (fx : array) (cost : R)
    : optimizer :=
  fun f x0 verbose bounds => inr (mkOptimizeResult xstar fx cost).

(** ** Anemometry: [src/pyfme/utils/anemometry.py] *)

(** [math.asin(x)]: a [ValueError] outside of [-1, 1]. *)
Definition py_asin (x : R) : prog R :=
  if Rlt_dec 1 (Rabs x) then Raise math_domain_error else Ret (asin x).

(** [calculate_alpha_beta_TAS(u, v, w)]: angle of attack, angle of
    sideslip and true air speed from the aerodynamic velocity in body
    axes. *)
Definition calculate_alpha_beta_TAS (u v w : R) : prog (R * R * R) :=
  TAS <- py_sqrt (u ^ 2 + v ^ 2 + w ^ 2) ;;
  t <- py_div w u ;;
  let alpha := atan t in
  s <- py_div v TAS ;;
  beta <- py_asin s ;;
  Ret (alpha, beta, TAS).

(** [calculate_dynamic_pressure(rho, TAS)] *)
Definition calculate_dynamic_pressure (rho TAS : R) : R :=
  0.5 * rho * TAS ^ 2.

(** [calculate_viscosity_Sutherland(T)].  The power [**(3/2)] is the real
    power, which is Python's for a positive temperature: for T <= 0 Python
    gives 0 or a complex number, and nothing is stated there. *)
Definition calculate_viscosity_Sutherland (T : R) : R :=
  let visc_0 := 1.176 * 1e-5 in
  let T_0 := 273.1 in
  let b := 0.4042 in
  visc_0 * Rpower (T / T_0) (3 / 2) * ((1 + b) / ((T / T_0) + b)).

(** ** The ball: [src/pyfme/ball/ball.py] *)

(** A numpy float that may not be finite: [None] stands for nan and for the
    infinities, which numpy's division by zero gives, with a warning and
    with no exception. *)
Definition np_float : Type := option R.

(** numpy's [x / y] on finite floats. *)
Definition np_div (x y : R) : np_float :=
  if Req_dec_T y 0 then None else Some (x / y).

(** numpy's [x * y] for a finite [y]: what is not finite stays so. *)
Definition np_mul (x : np_float) (y : R) : np_float :=
  option_map (fun a => a * y) x.

(** [Geometric_Data()]: radius, surface of the circle and of the sphere. *)
Definition Geometric_Data : R * R * R :=
  let r := 0.111 in
  let S_circle := PI * r ^ 2 in
  let S_sphere := 4 * PI * r ^ 2 in
  (r, S_circle, S_sphere).

(** [Mass_and_Inertial_Data(r)]: the mass and the inertia matrix,
    [np.diag([Ixxb, Iyyb, Izzb])]. *)
Definition Mass_and_Inertial_Data (r : R) : R * list array :=
  let mass := 0.440 in
  let Ixxb := 2 * mass * (r ^ 2) / 3 in
  let Iyyb := Ixxb in
  let Izzb := Ixxb in
  let I_matrix := [[Ixxb; 0; 0]; [0; Iyyb; 0]; [0; 0; Izzb]] in
  (mass, I_matrix).

(** The tables of [Ball_forces]. *)
Definition Re_list : list R :=
  [38000; 100000; 160000; 200000; 250000; 300000; 330000; 350000;
   375000; 400000; 500000; 800000; 200000; 4000000].
Definition Cd_list : list R :=
  [0.49; 0.50; 0.51; 0.51; 0.49; 0.46; 0.39; 0.20; 0.09; 0.07;
   0.07; 0.10; 0.15; 0.18].
Definition Sn_list : list R := [0.00; 0.04; 0.10; 0.20; 0.40].
Definition Cl_list : list R := [0.00; 0.10; 0.16; 0.23; 0.33].

(** The tuple [Ball_forces] returns. *)
Record BallForces : Type := mkBallForces {
  bf_D : R;
  bf_F_magnus : R;
  bf_Cd : R;
  bf_C_magnus : R;
  bf_F_magnus_vector_body : list np_float;
  bf_Fx_magnus_body : np_float;
  bf_Fy_magnus_body : np_float;
  bf_Fz_magnus_body : np_float
}.

Section Ball.

(** [np.interp(x, xp, fp)], from numpy. *)
Variable np_interp : R -> list R -> list R -> R.

(** [Ball_forces(velocity_vector, rho, radius)], for a velocity vector of
    six components [u, v, w, p, q, r].  The effective spin number divides
    by the speed [V]: the Reynolds test before it lets no zero speed
    through, so that the division is the one of the reals. *)
Definition Ball_forces (velocity_vector : R * R * R * R * R * R)
    (rho radius : R) : prog BallForces :=
  let A_front := PI * radius ^ 2 in
  let mu := 1.983 * / 10 ^ 5 in
  let '(u, v, w, p, q, r) := velocity_vector in
  let V := sqrt (u ^ 2 + v ^ 2 + w ^ 2) in
  let Re := rho * V * radius / mu in
  Cd <- (if Rlt_dec Re (nth 0 Re_list 0) then
           Raise (ValueError "Reynolds number cannot be lower than 38000.")
         else if Rlt_dec (last Re_list 0) Re then
           Raise (ValueError "Reynolds number cannot be higher than 4e6.")
         else Ret (np_interp Re Re_list Cd_list)) ;;
  let wn := sqrt ((v * r - w * q) ^ 2 + (w * p - u * r) ^ 2
                  + (u * q - v * p) ^ 2) in
  let Sn := wn * radius / V in
  C_magnus <-
    (if Rlt_dec Sn (nth 0 Sn_list 0) then
       Raise (ValueError "Effective Spin number cannot be less than 0.")
     else if Rlt_dec (last Sn_list 0) Sn then
       Raise (ValueError "Effective Spin number cannot be bigger than 0.40.")
     else Ret (np_interp Sn Sn_list Cl_list)) ;;
  let D := 0.5 * rho * V ^ 2 * A_front * Cd in
  let F_magnus := 0.5 * rho * V ^ 2 * A_front * C_magnus in
  let dir_F_magnus :=
    map (fun c => np_div c wn)
      [v * r - w * q; w * p - u * r; u * q - v * p] in
  let F_magnus_vector_body :=
    map (fun d => np_mul d F_magnus) dir_F_magnus in
  let Fx_magnus_body := nth 0 F_magnus_vector_body None in
  let Fy_magnus_body := nth 1 F_magnus_vector_body None in
  let Fz_magnus_body := nth 2 F_magnus_vector_body None in
  Ret (mkBallForces D F_magnus Cd C_magnus F_magnus_vector_body
         Fx_magnus_body Fy_magnus_body Fz_magnus_body).

End Ball.

(** A stand-in for [np.interp] to run [Ball_forces] on concrete inputs:
    the first ordinate of the table. *)
Definition example_interp (x : R) (xp fp : list R) : R := nth 0 fp 0.

(** * The closure functions on binary64 floats

    The closure functions once more, on the doubles that Python's floats
    are: the arithmetic is IEEE 754's, rounded to nearest even, the
    functions of [math] are the C library's behind CPython's test of
    their result, and the operators [/] and [**] raise as CPython's
    [float_div] and [float_pow] do.  The arguments are Python floats;
    a numpy float handed to a function of [math] is converted to one. *)
Module Binary64.

Local Open Scope float_scope.

(** What [**] raises when the result overflows: [OverflowError] with the
    pair (errno, message) of the C library's [ERANGE]. *)
Definition numerical_result_out_of_range : exn :=
  OverflowError "(34, 'Numerical result out of range')".

(** A float already computed, as an expression that returns it. *)
Definition val (x : float) : prog float := Ret x.

#[local] Coercion val : float >-> prog.

(** An IEEE 754 operation on the values of two expressions, evaluated
    from left to right: [+], [-] and [*] on floats raise nothing. *)
Definition binop (op : float -> float -> float) (p q : prog float)
    : prog float :=
  x <- p ;; y <- q ;; Ret (op x y).

(** [- x] *)
Definition neg (p : prog float) : prog float := x <- p ;; Ret (- x).

(** [x / y] ([float_div] of CPython's [floatobject.c]): a divisor that
    compares equal to zero is a [ZeroDivisionError]; any other is divided
    by, NaN and the infinities included. *)
Definition div (p q : prog float) : prog float :=
  x <- p ;; y <- q ;;
  if y =? 0 then Raise float_division_by_zero else Ret (x / y).

(** A function of [math] with one argument ([math_1] of CPython's
    [mathmodule.c], with [can_overflow = 0]): the C function is called;
    a NaN result from an argument that is not NaN, and an infinite result
    from a finite argument, are a [ValueError].  The C function is taken to
    leave [errno] alone when its result is finite. *)
Definition math_1 (func : float -> float) (p : prog float) : prog float :=
  x <- p ;;
  let r := func x in
  if is_nan r && negb (is_nan x) then Raise math_domain_error
  else if is_infinity r && is_finite x then Raise math_domain_error
  else Ret r.

(** [math.sqrt(x)]: the C function is IEEE 754's square root. *)
Definition sqrt : prog float -> prog float := math_1 PrimFloat.sqrt.

Section Libm.

(** The C library's [sin], [cos], [tan], [atan] and [pow]: their results
    are not fixed by IEEE 754 and differ from one library to another in
    the last bit. *)
Variables libm_sin libm_cos libm_tan libm_atan : float -> float.
Variable libm_pow : float -> float -> float.

Definition sin : prog float -> prog float := math_1 libm_sin.
Definition cos : prog float -> prog float := math_1 libm_cos.
Definition tan : prog float -> prog float := math_1 libm_tan.
Definition atan : prog float -> prog float := math_1 libm_atan.

(** [x ** 2] ([float_pow] of CPython's [floatobject.c], at the exponent
    2.0): NaN, the infinities, the zeros and 1 are answered without the C
    library; otherwise [pow] is called on the magnitude, and an infinite
    result is an [OverflowError].  A result that underflows, to zero
    included, is returned. *)
Definition pow2 (p : prog float) : prog float :=
  iv <- p ;;
  if is_nan iv then Ret iv
  else if is_infinity iv then Ret (abs iv)
  else if iv =? 0 then Ret 0
  else
    let iv := if iv <? 0 then - iv else iv in
    if iv =? 1 then Ret 1
    else
      let ix := libm_pow iv 2 in
      if is_infinity ix then Raise numerical_result_out_of_range
      else Ret ix.

Declare Scope py_scope.
Delimit Scope py_scope with py.
Notation "p + q" := (binop PrimFloat.add p q) : py_scope.
Notation "p - q" := (binop PrimFloat.sub p q) : py_scope.
Notation "p * q" := (binop PrimFloat.mul p q) : py_scope.
Notation "p / q" := (div p q) : py_scope.
Notation "- p" := (neg p) : py_scope.
Local Open Scope py_scope.

(** [turn_coord_cons(turn_rate, alpha, beta, TAS, gamma=0)] *)
Definition turn_coord_cons (turn_rate alpha beta TAS gamma : float)
    : prog float :=
  let g0 := 9.81%float in
  G <- turn_rate * TAS / g0 ;;
  if (abs gamma <? 1e-8)%float then
    phi <- G * cos beta / (cos alpha - G * sin alpha * sin beta) ;;
    phi <- atan phi ;;
    Ret phi
  else
    a <- 1 - G * tan alpha * sin beta ;;
    b <- sin gamma / cos beta ;;
    c <- 1 + pow2 G * pow2 (cos beta) ;;
    sq <- sqrt (c * (1 - pow2 b) + pow2 G * pow2 (sin beta)) ;;
    num <- (a - pow2 b) + b * tan alpha * sq ;;
    den <- pow2 a - pow2 b * (1 + c * pow2 (tan alpha)) ;;
    phi <- atan (G * cos beta / cos alpha * num / den) ;;
    Ret phi.

(** [rate_of_climb_cons(gamma, alpha, beta, phi)] *)
Definition rate_of_climb_cons (gamma alpha beta phi : float) : prog float :=
  a <- cos alpha * cos beta ;;
  b <- sin phi * sin beta + cos phi * sin alpha * cos beta ;;
  sq <- sqrt (pow2 a - pow2 (sin gamma) + pow2 b) ;;
  theta <- (a * b + sin gamma * sq) / (pow2 a - pow2 (sin gamma)) ;;
  theta <- atan theta ;;
  Ret theta.

(** The angular velocity of a steady turn, [p], [q] and [r] as [func] and
    [steady_state_flight_trim] compute them from the turn rate and the
    attitude. *)
Definition angular_velocity (turn_rate phi theta : float)
    : prog (float * float * float) :=
  p <- - turn_rate * sin theta ;;
  q <- turn_rate * sin phi * cos theta ;;
  r <- turn_rate * cos theta * sin phi ;;
  Ret (p, q, r).

(** The attitude and the angular velocity that [func] and
    [steady_state_flight_trim] derive from the flight condition and the
    wind angles: phi, theta and (p, q, r). *)
Definition attitude_and_angular_velocity
    (turn_rate alpha beta TAS gamma : float)
    : prog (float * float * (float * float * float)) :=
  phi <- (if (abs turn_rate <? 1e-8)%float then Ret 0%float
          else turn_coord_cons turn_rate alpha beta TAS gamma) ;;
  theta <- rate_of_climb_cons gamma alpha beta phi ;;
  ang_vel <- angular_velocity turn_rate phi theta ;;
  Ret (phi, theta, ang_vel).

End Libm.

End Binary64.

(** ** Definitions for the statements on floats *)

(** The exceptions of Python's arithmetic on floats. *)
Definition builtin_arithmetic_error (e : exn) : Prop :=
  e = ValueError "math domain error" \/
  e = ZeroDivisionError "float division by zero" \/
  e = OverflowError "(34, 'Numerical result out of range')".

(** Every exception that [p] raises satisfies [P]. *)
Definition raises_only {A : Type} (P : exn -> Prop) (p : prog A) : Prop :=
  forall e, p = Raise e -> P e.

(** A float that is a zero, of either sign, or NaN. *)
Definition zero_or_nan (x : float) : bool :=
  PrimFloat.eqb x 0 || PrimFloat.is_nan x.

(** ** The C library at the arguments of the examples

    The values of [sin], [cos], [tan], [atan] and [pow] of a C library
    (glibc 2.36 on x86-64) at the arguments that the examples below meet,
    and NaN elsewhere. *)
Definition table (t : list (float * float)) (x : float) : float :=
  match find (fun e => PrimFloat.eqb (fst e) x) t with
  | Some e => snd e
  | None => nan
  end.

Definition example_sin : float -> float :=
  table [(0, 0);
         (0.07, 0x1.1e7c641e76101p-4);
         (0.5, 0x1.eaee8744b05f0p-2);
         (1.5, 0x1.feb7a9b2c6d8bp-1);
         (0x1.921fb54442d18p+0, 1);
         (0x1.e3b1aff27f46fp-2, 0x1.d1e816719b66dp-2);
         (0x1.fed1e1354d79ap-5, 0x1.fe7d26cdeebdcp-5)]%float.

Definition example_cos : float -> float :=
  table [(0, 1);
         (0.07, 0x1.febf01345c1efp-1);
         (0.5, 0x1.c1528065b7d50p-1);
         (0x1.e3b1aff27f46fp-2, 0x1.c7ef5edbd216ap-1);
         (0x1.fed1e1354d79ap-5, 0x1.ff0142e81b5efp-1)]%float.

Definition example_tan : float -> float :=
  table [(0, 0)]%float.

Definition example_atan : float -> float :=
  table [(0, 0);
         (0x1.05994efc08078p-1, 0x1.e3b1aff27f46fp-2);
         (0x1.ff7ba20a53a1dp-5, 0x1.fed1e1354d79ap-5)]%float.

Definition example_pow (x y : float) : float :=
  if PrimFloat.eqb y 2 then
    table [(0x1.febf01345c1efp-1, 0x1.fd7ecba7b5971p-1);
           (0x1.fe3af63b488efp-5, 0x1.fc777d545a663p-9);
           (0x1.c1528065b7d50p-1, 0x1.8a51407da8346p-1);
           (0x1.feb7a9b2c6d8bp-1, 0x1.fd7025f42f2e9p-1);
           (0x1.22face10f6949p+0, 0x1.4abd30958da98p+0);
           (0x1.eaee8744b05f0p-2, 0x1.d6bafe095f2e9p-3);
           (0x1.10bca25b5a58ap+661, infinity)]%float x
  else nan.

(** * Properties *)

(** ** Python's arithmetic *)

Lemma py_div_nonzero (x y : R) : y <> 0 -> py_div x y = Ret (x / y).
Proof.
  intros Hy. unfold py_div.
  destruct (Req_dec_T y 0); [contradiction | reflexivity].
Qed.

Lemma py_div_by_zero (x y : R) :
  y = 0 -> py_div x y = Raise float_division_by_zero.
Proof.
  intros Hy. unfold py_div.
  destruct (Req_dec_T y 0); [reflexivity | contradiction].
Qed.

Lemma py_sqrt_nonneg (x : R) : 0 <= x -> py_sqrt x = Ret (sqrt x).
Proof.
  intros Hx. unfold py_sqrt. destruct (Rlt_dec x 0); [lra | reflexivity].
Qed.

Lemma py_sqrt_negative (x : R) :
  x < 0 -> py_sqrt x = Raise math_domain_error.
Proof.
  intros Hx. unfold py_sqrt. destruct (Rlt_dec x 0); [reflexivity | lra].
Qed.

Lemma Rltb_true (x y : R) : Rltb x y = true <-> x < y.
Proof.
  unfold Rltb. destruct (Rlt_dec x y); split; intros; try lra; congruence.
Qed.

Lemma Rgtb_true (x y : R) : Rgtb x y = true <-> x > y.
Proof. unfold Rgtb. rewrite Rltb_true. lra. Qed.

Lemma any_abs_gt_true (v : array) (bound : R) :
  any_abs_gt v bound = true <-> Exists (fun x => Rabs x > bound) v.
Proof.
  unfold any_abs_gt. rewrite existsb_exists, Exists_exists.
  split; intros [x [Hin Hx]]; exists x; split; auto; now apply Rgtb_true.
Qed.

(** ** Programs without effect *)

Lemma effect_free_py_div (x y : R) : effect_free (py_div x y).
Proof. unfold py_div. destruct (Req_dec_T y 0); exact I. Qed.

Lemma effect_free_py_sqrt (x : R) : effect_free (py_sqrt x).
Proof. unfold py_sqrt. destruct (Rlt_dec x 0); exact I. Qed.

Lemma effect_free_bind {A B : Type} (p : prog A) (g : A -> prog B) :
  effect_free p -> (forall a, effect_free (g a)) -> effect_free (bind p g).
Proof. destruct p; simpl; intros Hp Hg; try contradiction; auto. Qed.

Create HintDb effects.

#[local] Hint Resolve effect_free_py_div effect_free_py_sqrt : effects.

Ltac effect_free_tac :=
  repeat first
    [ exact I
    | apply effect_free_bind; [ | intro ]
    | solve [ auto with effects ] ].

Lemma effect_free_turn_coord_cons (turn_rate alpha beta TAS gamma : R) :
  effect_free (turn_coord_cons turn_rate alpha beta TAS gamma).
Proof.
  unfold turn_coord_cons. cbv zeta.
  destruct (Rlt_dec (Rabs gamma) 1e-8); effect_free_tac.
Qed.

Lemma effect_free_rate_of_climb_cons (gamma alpha beta phi : R) :
  effect_free (rate_of_climb_cons gamma alpha beta phi).
Proof. unfold rate_of_climb_cons. cbv zeta. effect_free_tac. Qed.

#[local] Hint Resolve effect_free_turn_coord_cons
  effect_free_rate_of_climb_cons : effects.

(** An effect-free program runs to its outcome whatever the optimizer, and
    leaves the warnings as they were. *)
Lemma effect_free_run {A : Type} (p : prog A) :
  effect_free p ->
  exists o : exn + A, forall ls ws, run ls p ws = (o, ws).
Proof.
  destruct p; simpl; intros H; try contradiction.
  - exists (inr a). reflexivity.
  - exists (inl e). reflexivity.
Qed.

Lemma run_bind {A B : Type} (ls : optimizer) (p : prog A) (g : A -> prog B) :
  forall ws,
    run ls (bind p g) ws =
    match run ls p ws with
    | (inl e, ws') => (inl e, ws')
    | (inr a, ws') => run ls (g a) ws'
    end.
Proof.
  induction p as [A a | A e | A w k IH | A f IHf x0 v b k IH];
    intros ws; simpl.
  - reflexivity.
  - reflexivity.
  - apply IH.
  - destruct (ls _ x0 v b) as [e | r]; [reflexivity | apply IH].
Qed.

Lemma bind_Ret_inv {A B : Type} (p : prog A) (g : A -> prog B) (b : B) :
  bind p g = Ret b -> exists a, p = Ret a /\ g a = Ret b.
Proof.
  destruct p; simpl; intros H; try discriminate H.
  exists a. split; [reflexivity | assumption].
Qed.

(** ** Binary64: what is raised *)

Lemma raises_only_bind {A B : Type} (P : exn -> Prop) (p : prog A)
    (g : A -> prog B) :
  raises_only P p -> (forall a, raises_only P (g a)) ->
  raises_only P (bind p g).
Proof.
  intros Hp Hg e. destruct p; simpl; intros H; try discriminate.
  - exact (Hg a e H).
  - apply Hp. congruence.
Qed.

Lemma raises_only_Ret {A : Type} (P : exn -> Prop) (a : A) :
  raises_only P (Ret a).
Proof. intros e H. discriminate. Qed.

Lemma raises_only_val (x : float) :
  raises_only builtin_arithmetic_error (Binary64.val x).
Proof. apply raises_only_Ret. Qed.

Lemma raises_only_binop (op : float -> float -> float) (p q : prog float) :
  raises_only builtin_arithmetic_error p ->
  raises_only builtin_arithmetic_error q ->
  raises_only builtin_arithmetic_error (Binary64.binop op p q).
Proof.
  intros Hp Hq. unfold Binary64.binop.
  apply raises_only_bind; [exact Hp | intros x].
  apply raises_only_bind; [exact Hq | intros y].
  apply raises_only_Ret.
Qed.

Lemma raises_only_neg (p : prog float) :
  raises_only builtin_arithmetic_error p ->
  raises_only builtin_arithmetic_error (Binary64.neg p).
Proof.
  intros Hp. unfold Binary64.neg.
  apply raises_only_bind; [exact Hp | intros x]. apply raises_only_Ret.
Qed.

Lemma raises_only_div (p q : prog float) :
  raises_only builtin_arithmetic_error p ->
  raises_only builtin_arithmetic_error q ->
  raises_only builtin_arithmetic_error (Binary64.div p q).
Proof.
  intros Hp Hq. unfold Binary64.div.
  apply raises_only_bind; [exact Hp | intros x].
  apply raises_only_bind; [exact Hq | intros y].
  destruct (PrimFloat.eqb y 0); intros e H; [ | discriminate].
  injection H as <-. right; left; reflexivity.
Qed.

Lemma raises_only_math_1 (func : float -> float) (p : prog float) :
  raises_only builtin_arithmetic_error p ->
  raises_only builtin_arithmetic_error (Binary64.math_1 func p).
Proof.
  intros Hp. unfold Binary64.math_1.
  apply raises_only_bind; [exact Hp | intros x]. cbv zeta.
  destruct (_ && _); [ | destruct (_ && _)]; intros e H;
    try discriminate; injection H as <-; left; reflexivity.
Qed.

Lemma raises_only_pow2 (libm_pow : float -> float -> float)
    (p : prog float) :
  raises_only builtin_arithmetic_error p ->
  raises_only builtin_arithmetic_error (Binary64.pow2 libm_pow p).
Proof.
  intros Hp. unfold Binary64.pow2.
  apply raises_only_bind; [exact Hp | intros x]. cbv zeta.
  repeat match goal with
         | |- raises_only _ (if ?c then _ else _) => destruct c
         end;
    intros e H; try discriminate.
  injection H as <-. right; right; reflexivity.
Qed.

(** One step through an expression: its operator, or the statement it
    begins. *)
Ltac raises_only_step :=
  match goal with
  | |- raises_only _ (Ret _) => apply raises_only_Ret
  | |- raises_only _ (Binary64.val _) => apply raises_only_val
  | |- raises_only _ (Binary64.binop _ _ _) => apply raises_only_binop
  | |- raises_only _ (Binary64.neg _) => apply raises_only_neg
  | |- raises_only _ (Binary64.div _ _) => apply raises_only_div
  | |- raises_only _ (Binary64.sqrt _) => apply raises_only_math_1
  | |- raises_only _ (Binary64.sin _ _) => apply raises_only_math_1
  | |- raises_only _ (Binary64.cos _ _) => apply raises_only_math_1
  | |- raises_only _ (Binary64.tan _ _) => apply raises_only_math_1
  | |- raises_only _ (Binary64.atan _ _) => apply raises_only_math_1
  | |- raises_only _ (Binary64.pow2 _ _) => apply raises_only_pow2
  | |- raises_only _ (bind _ _) => apply raises_only_bind; [ | intro ]
  end.

Lemma raises_only_turn_coord_cons
    (libm_sin libm_cos libm_tan libm_atan : float -> float)
    (libm_pow : float -> float -> float)
    (turn_rate alpha beta TAS gamma : float) :
  raises_only builtin_arithmetic_error
    (Binary64.turn_coord_cons libm_sin libm_cos libm_tan libm_atan libm_pow
       turn_rate alpha beta TAS gamma).
Proof.
  unfold Binary64.turn_coord_cons. cbv zeta.
  raises_only_step; [repeat raises_only_step | ].
  destruct (PrimFloat.ltb _ _); repeat raises_only_step.
Qed.

Lemma raises_only_rate_of_climb_cons
    (libm_sin libm_cos libm_atan : float -> float)
    (libm_pow : float -> float -> float) (gamma alpha beta phi : float) :
  raises_only builtin_arithmetic_error
    (Binary64.rate_of_climb_cons libm_sin libm_cos libm_atan libm_pow
       gamma alpha beta phi).
Proof. unfold Binary64.rate_of_climb_cons. repeat raises_only_step. Qed.

(** NaN is recognised by its image in the specification of the floats. *)
Lemma is_nan_spec (x : float) :
  PrimFloat.is_nan x = true <-> Prim2SF x = S754_nan.
Proof.
  unfold PrimFloat.is_nan. rewrite FloatAxioms.eqb_spec.
  destruct (Prim2SF x) as [s | s | | s m e]; simpl.
  - split; discriminate.
  - destruct s; split; discriminate.
  - split; reflexivity.
  - unfold SFeqb, SFcompare. destruct s; rewrite Z.compare_refl, Pos.compare_refl; simpl; split; discriminate.
Qed.

Lemma is_nan_eq (x : float) : PrimFloat.is_nan x = true -> x = nan.
Proof.
  intros H. apply Prim2SF_inj. apply is_nan_spec in H. rewrite H.
  reflexivity.
Qed.

Lemma div_nan_r (x : float) : PrimFloat.div x nan = nan.
Proof.
  apply Prim2SF_inj. rewrite div_spec.
  change (Prim2SF nan) with S754_nan.
  destruct (Prim2SF x) as [s | s | | s m e]; reflexivity.
Qed.

Lemma div_nan_l (y : float) : PrimFloat.div nan y = nan.
Proof.
  apply Prim2SF_inj. rewrite div_spec.
  change (Prim2SF nan) with S754_nan. reflexivity.
Qed.

Lemma sqrt_negative (x : float) :
  PrimFloat.ltb x 0 = true ->
  PrimFloat.is_nan (PrimFloat.sqrt x) = true /\ PrimFloat.is_nan x = false.
Proof.
  rewrite ltb_spec. change (Prim2SF 0) with (S754_zero false).
  intros H. split.
  - apply is_nan_spec. rewrite sqrt_spec.
    destruct (Prim2SF x) as [s | s | | s m e]; simpl in H;
      try discriminate; destruct s; try discriminate; reflexivity.
  - destruct (PrimFloat.is_nan x) eqn:E; [ | reflexivity].
    apply is_nan_spec in E. rewrite E in H. discriminate.
Qed.

(** ** Binary64: what is returned *)

Lemma val_Ret_inv (x r : float) : Binary64.val x = Ret r -> r = x.
Proof. unfold Binary64.val. congruence. Qed.

Lemma binop_Ret_inv (op : float -> float -> float) (p q : prog float)
    (r : float) :
  Binary64.binop op p q = Ret r ->
  exists x y, p = Ret x /\ q = Ret y /\ r = op x y.
Proof.
  unfold Binary64.binop. intros H.
  apply bind_Ret_inv in H. destruct H as [x [Hp H]].
  apply bind_Ret_inv in H. destruct H as [y [Hq H]].
  exists x, y. repeat split; congruence.
Qed.

Lemma neg_Ret_inv (p : prog float) (r : float) :
  Binary64.neg p = Ret r -> exists x, p = Ret x /\ r = PrimFloat.opp x.
Proof.
  unfold Binary64.neg. intros H.
  apply bind_Ret_inv in H. destruct H as [x [Hp H]].
  exists x. split; congruence.
Qed.

Lemma div_Ret_inv (p q : prog float) (r : float) :
  Binary64.div p q = Ret r ->
  exists x y,
    p = Ret x /\ q = Ret y /\ PrimFloat.eqb y 0 = false /\
    r = PrimFloat.div x y.
Proof.
  unfold Binary64.div. intros H.
  apply bind_Ret_inv in H. destruct H as [x [Hp H]].
  apply bind_Ret_inv in H. destruct H as [y [Hq H]].
  exists x, y. destruct (PrimFloat.eqb y 0); [discriminate | ].
  repeat split; congruence.
Qed.

Lemma math_1_Ret_inv (func : float -> float) (p : prog float) (r : float) :
  Binary64.math_1 func p = Ret r -> exists x, p = Ret x /\ r = func x.
Proof.
  unfold Binary64.math_1. intros H.
  apply bind_Ret_inv in H. destruct H as [x [Hp H]]. cbv zeta in H.
  exists x. split; [exact Hp | ].
  destruct (_ && _); [discriminate | ].
  destruct (_ && _); [discriminate | congruence].
Qed.

(** A zero or a NaN, in the specification of the floats. *)
Lemma zero_or_nan_spec (x : float) :
  zero_or_nan x = true <->
  (exists s, Prim2SF x = S754_zero s) \/ Prim2SF x = S754_nan.
Proof.
  unfold zero_or_nan. rewrite orb_true_iff, is_nan_spec.
  rewrite FloatAxioms.eqb_spec. change (Prim2SF 0) with (S754_zero false).
  destruct (Prim2SF x) as [s | s | | s m e]; simpl.
  - split; intros _; [left; exists s | left]; reflexivity.
  - split; [intros [H | H] | intros [[s' H] | H]];
      try discriminate; destruct s; discriminate.
  - split; intros _; right; reflexivity.
  - split; [intros [H | H] | intros [[s' H] | H]];
      try discriminate; destruct s; discriminate.
Qed.

(** A zero or a NaN stays one when multiplied and when divided. *)
Lemma zero_or_nan_mul (x y : float) :
  zero_or_nan x = true -> zero_or_nan (PrimFloat.mul x y) = true.
Proof.
  rewrite !zero_or_nan_spec, mul_spec.
  intros [[s H] | H]; rewrite H;
    destruct (Prim2SF y) as [t | t | | t m e]; simpl; eauto.
Qed.

Lemma zero_or_nan_div (x y : float) :
  zero_or_nan x = true -> zero_or_nan (PrimFloat.div x y) = true.
Proof.
  rewrite !zero_or_nan_spec, div_spec.
  intros [[s H] | H]; rewrite H;
    destruct (Prim2SF y) as [t | t | | t m e]; simpl; eauto.
Qed.

(** With a zero turn rate, what [turn_coord_cons] hands to [atan] on
    either branch is a zero or NaN. *)
Lemma turn_coord_cons_zero_turn_rate_binary64
    (libm_sin libm_cos libm_tan libm_atan : float -> float)
    (libm_pow : float -> float -> float)
    (turn_rate alpha beta TAS gamma phi : float) :
     PrimFloat.eqb turn_rate 0 = true ->
     Binary64.turn_coord_cons libm_sin libm_cos libm_tan libm_atan libm_pow
       turn_rate alpha beta TAS gamma = Ret phi ->
     exists z, zero_or_nan z = true /\ phi = libm_atan z.
Proof.
  intros Ht H. unfold Binary64.turn_coord_cons in H. cbv zeta in H.
  apply bind_Ret_inv in H. destruct H as [G [HG H]].
  assert (HG0 : zero_or_nan G = true).
  { apply div_Ret_inv in HG. destruct HG as [x [y [Hx [Hy [Hy0 ->]]]]].
    apply binop_Ret_inv in Hx. destruct Hx as [t [T [Ht' [_ ->]]]].
    apply val_Ret_inv in Ht'. subst t.
    apply zero_or_nan_div.
    apply zero_or_nan_mul. unfold zero_or_nan. rewrite Ht. reflexivity. }
  clear HG. destruct (PrimFloat.ltb _ _).
  - apply bind_Ret_inv in H. destruct H as [phi0 [Hphi0 H]].
    apply bind_Ret_inv in H. destruct H as [phi1 [Hphi1 H]].
    apply math_1_Ret_inv in Hphi1. destruct Hphi1 as [z [Hz ->]].
    apply val_Ret_inv in Hz. subst z.
    exists phi0. split; [ | congruence].
    apply div_Ret_inv in Hphi0. destruct Hphi0 as [x [y [Hx [_ [Hy0 ->]]]]].
    apply binop_Ret_inv in Hx. destruct Hx as [g [cb [Hg [_ ->]]]].
    apply val_Ret_inv in Hg. subst g.
    apply zero_or_nan_div. now apply zero_or_nan_mul.
  - do 6 (apply bind_Ret_inv in H; destruct H as [? [_ H]]).
    apply bind_Ret_inv in H. destruct H as [phi1 [Hphi1 H]].
    apply math_1_Ret_inv in Hphi1. destruct Hphi1 as [z [Hz ->]].
    exists z. split; [ | congruence].
    apply div_Ret_inv in Hz. destruct Hz as [t1 [d1 [Ht1 [_ [_ ->]]]]].
    apply binop_Ret_inv in Ht1. destruct Ht1 as [t2 [n2 [Ht2 [_ ->]]]].
    apply div_Ret_inv in Ht2. destruct Ht2 as [t3 [d3 [Ht3 [_ [_ ->]]]]].
    apply binop_Ret_inv in Ht3. destruct Ht3 as [g [cb [Hg [_ ->]]]].
    apply val_Ret_inv in Hg. subst g.
    apply zero_or_nan_div, zero_or_nan_mul, zero_or_nan_div.
    now apply zero_or_nan_mul.
Qed.

(** The three components of the angular velocity, as products of
    floats. *)
Lemma angular_velocity_factors (libm_sin libm_cos : float -> float)
    (turn_rate phi theta p q r : float) :
  Binary64.angular_velocity libm_sin libm_cos turn_rate phi theta
  = Ret (p, q, r) ->
  p = PrimFloat.mul (PrimFloat.opp turn_rate) (libm_sin theta) /\
  q = PrimFloat.mul (PrimFloat.mul turn_rate (libm_sin phi)) (libm_cos theta) /\
  r = PrimFloat.mul (PrimFloat.mul turn_rate (libm_cos theta)) (libm_sin phi).
Proof.
  intros H. unfold Binary64.angular_velocity in H.
  apply bind_Ret_inv in H. destruct H as [p0 [Hp H]].
  apply bind_Ret_inv in H. destruct H as [q0 [Hq H]].
  apply bind_Ret_inv in H. destruct H as [r0 [Hr H]].
  assert (E : (p0, q0, r0) = (p, q, r)) by congruence.
  injection E as -> -> ->.
  repeat match goal with
         | H : Binary64.binop _ _ _ = Ret _ |- _ =>
             apply binop_Ret_inv in H; destruct H as [? [? [? [? ?]]]]
         | H : Binary64.neg _ = Ret _ |- _ =>
             apply neg_Ret_inv in H; destruct H as [? [? ?]]
         | H : Binary64.sin _ _ = Ret _ |- _ =>
             apply math_1_Ret_inv in H; destruct H as [? [? ?]]
         | H : Binary64.cos _ _ = Ret _ |- _ =>
             apply math_1_Ret_inv in H; destruct H as [? [? ?]]
         | H : Binary64.val _ = Ret _ |- _ => apply val_Ret_inv in H
         end.
  subst. repeat split.
Qed.

(** ** The closure functions and their domain *)

(** Opens the next test of a closure function: a zero divisor or a
    negative argument of the square root. *)
Ltac next_test :=
  match goal with
  | |- context [Req_dec_T ?x 0] => destruct (Req_dec_T x 0)
  | |- context [Rlt_dec ?x 0] => destruct (Rlt_dec x 0)
  end; cbn [bind].

Lemma turn_coord_cons_fast (turn_rate alpha beta TAS gamma : R) :
  Rabs gamma < 1e-8 ->
  turn_coord_cons turn_rate alpha beta TAS gamma =
  let G := turn_rate * TAS / 9.81 in
  if Req_dec_T (cos alpha - G * sin alpha * sin beta) 0
  then Raise float_division_by_zero
  else Ret (atan (G * cos beta / (cos alpha - G * sin alpha * sin beta))).
Proof.
  intros Hg. unfold turn_coord_cons, py_div. cbv zeta.
  destruct (Rlt_dec (Rabs gamma) 1e-8); [ | contradiction].
  next_test; reflexivity.
Qed.

Lemma turn_coord_cons_general (turn_rate alpha beta TAS gamma : R) :
  ~ Rabs gamma < 1e-8 ->
  turn_coord_cons turn_rate alpha beta TAS gamma =
  let G := turn_rate * TAS / 9.81 in
  let a := 1 - G * tan alpha * sin beta in
  let b := sin gamma / cos beta in
  let c := 1 + G ^ 2 * cos beta ^ 2 in
  let sq := sqrt (c * (1 - b ^ 2) + G ^ 2 * sin beta ^ 2) in
  let num := (a - b ^ 2) + b * tan alpha * sq in
  let den := a ^ 2 - b ^ 2 * (1 + c * tan alpha ^ 2) in
  if Req_dec_T (cos beta) 0 then Raise float_division_by_zero
  else if Rlt_dec (c * (1 - b ^ 2) + G ^ 2 * sin beta ^ 2) 0
  then Raise math_domain_error
  else if Req_dec_T (cos alpha) 0 then Raise float_division_by_zero
  else if Req_dec_T den 0 then Raise float_division_by_zero
  else Ret (atan (G * cos beta / cos alpha * num / den)).
Proof.
  intros Hg. unfold turn_coord_cons, py_div, py_sqrt. cbv zeta.
  destruct (Rlt_dec (Rabs gamma) 1e-8); [contradiction | ].
  repeat (next_test; try reflexivity).
Qed.

Lemma rate_of_climb_cons_cases (gamma alpha beta phi : R) :
  rate_of_climb_cons gamma alpha beta phi =
  let a := cos alpha * cos beta in
  let b := sin phi * sin beta + cos phi * sin alpha * cos beta in
  let sq := sqrt (a ^ 2 - sin gamma ^ 2 + b ^ 2) in
  if Rlt_dec (a ^ 2 - sin gamma ^ 2 + b ^ 2) 0 then Raise math_domain_error
  else if Req_dec_T (a ^ 2 - sin gamma ^ 2) 0
  then Raise float_division_by_zero
  else Ret (atan ((a * b + sin gamma * sq) / (a ^ 2 - sin gamma ^ 2))).
Proof.
  unfold rate_of_climb_cons, py_div, py_sqrt. cbv zeta.
  repeat (next_test; try reflexivity).
Qed.

Lemma turn_coord_cons_outcome (turn_rate alpha beta TAS gamma : R) :
  (turn_coord_domain_violation turn_rate alpha beta TAS gamma ->
   turn_coord_cons turn_rate alpha beta TAS gamma = Raise math_domain_error
   \/ turn_coord_cons turn_rate alpha beta TAS gamma
      = Raise float_division_by_zero) /\
  (~ turn_coord_domain_violation turn_rate alpha beta TAS gamma ->
   exists v, turn_coord_cons turn_rate alpha beta TAS gamma = Ret v).
Proof.
  unfold turn_coord_domain_violation. cbv zeta.
  destruct (Rlt_dec (Rabs gamma) 1e-8) as [Hg | Hg].
  - rewrite (turn_coord_cons_fast _ _ _ _ _ Hg). cbv zeta.
    next_test; split; intros H; try contradiction; eauto.
  - rewrite (turn_coord_cons_general _ _ _ _ _ Hg). cbv zeta.
    repeat (next_test; try (split; intros H; eauto; tauto)).
Qed.

Lemma rate_of_climb_cons_outcome (gamma alpha beta phi : R) :
  (rate_of_climb_domain_violation gamma alpha beta phi ->
   rate_of_climb_cons gamma alpha beta phi = Raise math_domain_error \/
   rate_of_climb_cons gamma alpha beta phi = Raise float_division_by_zero)
  /\
  (~ rate_of_climb_domain_violation gamma alpha beta phi ->
   exists v, rate_of_climb_cons gamma alpha beta phi = Ret v).
Proof.
  unfold rate_of_climb_domain_violation.
  rewrite rate_of_climb_cons_cases. cbv zeta.
  repeat (next_test; try (split; intros H; eauto; tauto)).
Qed.



(** The value of the general branch is the closed form of the
    specification. *)
Lemma general_value_is_spec (turn_rate alpha beta TAS gamma : R) :
  let G := turn_rate * TAS / 9.81 in
  let a := 1 - G * tan alpha * sin beta in
  let b := sin gamma / cos beta in
  let c := 1 + G ^ 2 * cos beta ^ 2 in
  let sq := sqrt (c * (1 - b ^ 2) + G ^ 2 * sin beta ^ 2) in
  let num := (a - b ^ 2) + b * tan alpha * sq in
  let den := a ^ 2 - b ^ 2 * (1 + c * tan alpha ^ 2) in
  atan (G * cos beta / cos alpha * num / den)
  = spec_turn_coordination_general turn_rate alpha beta TAS gamma.
Proof.
  cbv zeta. unfold spec_turn_coordination_general. cbv zeta.
  rewrite !Rsqr_pow2. f_equal. unfold Rdiv. ring.
Qed.


(** ** The solver *)

Lemma effect_free_run_inv {A : Type} (p : prog A) (ls : optimizer)
    (ws ws' : list warning) (a : A) :
  effect_free p -> run ls p ws = (inr a, ws') -> p = Ret a /\ ws' = ws.
Proof.
  destruct p; simpl; intros Hp H; try contradiction; inversion H; auto.
Qed.

Lemma effect_free_run_warnings {A : Type} (p : prog A) (ls : optimizer)
    (ws : list warning) :
  effect_free p -> snd (run ls p ws) = ws.
Proof.
  intros Hp. destruct (effect_free_run p Hp) as [o Ho].
  rewrite Ho. reflexivity.
Qed.

(** The warnings emitted on the optimizer's result [r]. *)
Lemma run_diagnose (ls : optimizer) (r : OptimizeResult) (ws : list warning) :
  exists ws',
    run ls (diagnose r) ws = (inr tt, ws ++ ws') /\
    (In convergence_warning ws' <-> not_converged r) /\
    (In power_warning ws' <->
     not_converged r /\ tv_delta_t (res_x r) > 0.99).
Proof.
  unfold diagnose. cbv zeta.
  assert (Hc : Rgtb (res_cost r) 1e-7 || any_abs_gt (res_fun r) 1e-3 = true
               <-> not_converged r).
  { unfold not_converged.
    rewrite orb_true_iff, Rgtb_true, any_abs_gt_true. reflexivity. }
  destruct (Rgtb (res_cost r) 1e-7 || any_abs_gt (res_fun r) 1e-3).
  - assert (Hn : not_converged r) by now apply Hc.
    pose proof (Rgtb_true (tv_delta_t (res_x r)) 0.99) as Ht.
    destruct (Rgtb (tv_delta_t (res_x r)) 0.99).
    + exists [convergence_warning; power_warning]. simpl.
      rewrite <- app_assoc. simpl.
      split; [reflexivity | ].
      split; split; intros; auto.
      split; [assumption | now apply Ht].
    + exists [convergence_warning]. simpl.
      split; [reflexivity | ].
      split; split; intros H; auto.
      * destruct H as [H | []]. discriminate H.
      * destruct H as [_ H]. apply Ht in H. discriminate H.
  - exists []. simpl. rewrite app_nil_r.
    split; [reflexivity | ].
    split; split; intros H; try contradiction.
    + apply Hc in H. discriminate H.
    + destruct H as [H _]. apply Hc in H. discriminate H.
Qed.

Lemma run_diagnose_converged (ls : optimizer) (r : OptimizeResult)
    (ws : list warning) :
  ~ not_converged r -> run ls (diagnose r) ws = (inr tt, ws).
Proof.
  intros Hn. unfold diagnose. cbv zeta.
  destruct (Rgtb (res_cost r) 1e-7 || any_abs_gt (res_fun r) 1e-3) eqn:Hb;
    [ | reflexivity].
  exfalso. apply Hn. unfold not_converged.
  rewrite orb_true_iff, Rgtb_true, any_abs_gt_true in Hb. exact Hb.
Qed.

Section Solver.

Variable wind2body : R * R * R -> R -> R -> array.
Variable atm : R -> R * R * R * R.
Variable linear_and_angular_momentum_eqs : dynamics.

Lemma effect_free_reconstruct (TAS gamma turn_rate : R) (r : OptimizeResult) :
  effect_free (reconstruct wind2body TAS gamma turn_rate r).
Proof.
  unfold reconstruct. cbv zeta.
  destruct (Rlt_dec (Rabs turn_rate) 1e-8); effect_free_tac.
Qed.

(** The residual function has no effect of its own either. *)
Lemma effect_free_func (x : TrimVariables) (h TAS gamma turn_rate : R)
    (aircraft : Aircraft) (d : dynamics) :
  effect_free (func wind2body atm x h TAS gamma turn_rate aircraft d).
Proof.
  unfold func. cbv zeta.
  destruct (atm h) as [[[T p] rho] a].
  destruct (mass_and_inertial_data aircraft) as [mass inertia].
  destruct (Rlt_dec (Rabs turn_rate) 1e-8); effect_free_tac;
    destruct (get_forces_and_moments _ _ _ _ _ _ _ _ _ _ _); exact I.
Qed.

(** With no dynamics supplied the solver calls the optimizer on the
    residual function with the default dynamics, then warns and
    reconstructs the state. *)
Lemma trim_default (aircraft : Aircraft) (h TAS gamma turn_rate : R)
    (verbose : Z) :
  steady_state_flight_trim wind2body atm linear_and_angular_momentum_eqs
    aircraft h TAS gamma turn_rate None verbose
  = LeastSquares
      (fun x => func wind2body atm x h TAS gamma turn_rate aircraft
                  linear_and_angular_momentum_eqs)
      (initial_guess gamma turn_rate) verbose (lower_bounds, upper_bounds)
      (fun results =>
         diagnose results ;;;
         reconstruct wind2body TAS gamma turn_rate results).
Proof. reflexivity. Qed.

Lemma trim_supplied (aircraft : Aircraft) (h TAS gamma turn_rate : R)
    (d : dynamics) (verbose : Z) :
  steady_state_flight_trim wind2body atm linear_and_angular_momentum_eqs
    aircraft h TAS gamma turn_rate (Some d) verbose
  = Raise (UnboundLocalError "dynamic_eqs").
Proof. reflexivity. Qed.

Lemma run_trim_default (ls : optimizer) (aircraft : Aircraft)
    (h TAS gamma turn_rate : R) (verbose : Z) (ws : list warning) :
  run ls
    (steady_state_flight_trim wind2body atm linear_and_angular_momentum_eqs
       aircraft h TAS gamma turn_rate None verbose) ws
  = match ls (fun x =>
                fst (run ls (func wind2body atm x h TAS gamma turn_rate
                               aircraft linear_and_angular_momentum_eqs) []))
             (initial_guess gamma turn_rate) verbose
             (lower_bounds, upper_bounds) with
    | inl e => (inl e, ws)
    | inr r =>
        run ls (diagnose r ;;; reconstruct wind2body TAS gamma turn_rate r) ws
    end.
Proof. rewrite trim_default. reflexivity. Qed.

(** A run that returns a result went through the optimizer on the default
    dynamics, and the result is the reconstruction from what the optimizer
    returned. *)
Lemma run_trim_returns (ls : optimizer) (aircraft : Aircraft)
    (h TAS gamma turn_rate : R) (dyn_eqs : option dynamics) (verbose : Z)
    (ws ws' : list warning) (out : TrimResult) :
  run ls
    (steady_state_flight_trim wind2body atm linear_and_angular_momentum_eqs
       aircraft h TAS gamma turn_rate dyn_eqs verbose) ws
  = (inr out, ws') ->
  dyn_eqs = None /\
  exists r,
    ls (fun x =>
          fst (run ls (func wind2body atm x h TAS gamma turn_rate
                         aircraft linear_and_angular_momentum_eqs) []))
       (initial_guess gamma turn_rate) verbose (lower_bounds, upper_bounds)
    = inr r /\
    reconstruct wind2body TAS gamma turn_rate r = Ret out.
Proof.
  destruct dyn_eqs as [d | ].
  - rewrite trim_supplied. simpl. discriminate.
  - rewrite run_trim_default.
    destruct (ls _ (initial_guess gamma turn_rate) verbose
                 (lower_bounds, upper_bounds)) as [e | r] eqn:Hls.
    + discriminate.
    + intros H. split; [reflexivity | ]. exists r. split; [reflexivity | ].
      rewrite run_bind in H.
      destruct (run_diagnose ls r ws) as [wd [Hd _]]. rewrite Hd in H.
      apply effect_free_run_inv in H; [ | apply effect_free_reconstruct].
      apply H.
Qed.

(** C9: a call that supplies [dyn_eqs] fails with [UnboundLocalError] on
    the local [dynamic_eqs], a subclass of [NameError], before the
    optimizer is called: the residual function is never evaluated, whatever
    the optimizer, and no warning is emitted.  A call that leaves [dyn_eqs]
    out does reach the optimizer. *)
Theorem supplied_dynamics_raise_unbound_local :
  forall (aircraft : Aircraft) (h TAS gamma turn_rate : R) (d : dynamics)
         (verbose : Z),
    steady_state_flight_trim wind2body atm linear_and_angular_momentum_eqs
      aircraft h TAS gamma turn_rate (Some d) verbose
    = Raise (UnboundLocalError "dynamic_eqs") /\
    (forall (ls : optimizer) (ws : list warning),
        run ls
          (steady_state_flight_trim wind2body atm
             linear_and_angular_momentum_eqs aircraft h TAS gamma turn_rate
             (Some d) verbose) ws
        = (inl (UnboundLocalError "dynamic_eqs"), ws)) /\
    exists f x0 bounds k,
      steady_state_flight_trim wind2body atm linear_and_angular_momentum_eqs
        aircraft h TAS gamma turn_rate None verbose
      = LeastSquares f x0 verbose bounds k.
Proof.
  intros. split; [apply trim_supplied | ].
  split; [intros; rewrite trim_supplied; reflexivity | ].
  rewrite trim_default. do 4 eexists. reflexivity.
Qed.

(** C4, amended: the dynamics are an optional input.  When the caller
    leaves [dyn_eqs] out, the solve hands the optimizer the residual
    function on the package's [linear_and_angular_momentum_eqs]: every
    evaluation of the residual, at every point, uses that default. *)
Theorem omitted_dynamics_use_default :
  forall (aircraft : Aircraft) (h TAS gamma turn_rate : R) (verbose : Z),
  exists f k,
    steady_state_flight_trim wind2body atm linear_and_angular_momentum_eqs
      aircraft h TAS gamma turn_rate None verbose
    = LeastSquares f (initial_guess gamma turn_rate) verbose
        (lower_bounds, upper_bounds) k /\
    forall x,
      f x = func wind2body atm x h TAS gamma turn_rate aircraft
              linear_and_angular_momentum_eqs.
Proof.
  intros. rewrite trim_default. do 2 eexists.
  split; [reflexivity | intros x; reflexivity].
Qed.

(** C1, amended: the solver makes no check of TAS.  For every TAS, also
    zero or negative, a call that leaves [dyn_eqs] out goes to the
    optimizer: its outcome is the optimizer's exception, or what the
    warnings and the reconstruction make of the optimizer's result when
    it returns one.  No exception the solver raises instead of calling the
    optimizer is an InvalidFlightCondition. *)
Theorem trim_calls_optimizer_for_every_TAS :
  forall (aircraft : Aircraft) (h TAS gamma turn_rate : R) (verbose : Z)
         (ls : optimizer) (ws : list warning),
    run ls
      (steady_state_flight_trim wind2body atm linear_and_angular_momentum_eqs
         aircraft h TAS gamma turn_rate None verbose) ws
    = match ls (fun x =>
                  fst (run ls (func wind2body atm x h TAS gamma turn_rate
                                 aircraft linear_and_angular_momentum_eqs)
                         []))
               (initial_guess gamma turn_rate) verbose
               (lower_bounds, upper_bounds) with
      | inl e => (inl e, ws)
      | inr r =>
          run ls (diagnose r ;;; reconstruct wind2body TAS gamma turn_rate r)
            ws
      end /\
    forall (dyn_eqs : option dynamics) (e : exn),
      steady_state_flight_trim wind2body atm linear_and_angular_momentum_eqs
        aircraft h TAS gamma turn_rate dyn_eqs verbose = Raise e ->
      exn_class e <> "InvalidFlightCondition"%string.
Proof.
  intros. split.
  - apply run_trim_default.
  - intros [d | ] e H.
    + rewrite trim_supplied in H. inversion H. simpl. discriminate.
    + rewrite trim_default in H. discriminate H.
Qed.

(** C2, amended: the power warning is nested in the convergence warning.
    When the optimizer returns [r], the solve emits the convergence warning
    exactly when the cost is above 1e-7 or a residual component above 1e-3
    in magnitude, and the power warning exactly when that holds and the
    throttle is above 0.99 as well. *)
Theorem power_warning_requires_convergence_warning :
  forall (aircraft : Aircraft) (h TAS gamma turn_rate : R) (verbose : Z)
         (ls : optimizer) (ws : list warning) (r : OptimizeResult),
    ls (fun x =>
          fst (run ls (func wind2body atm x h TAS gamma turn_rate
                         aircraft linear_and_angular_momentum_eqs) []))
       (initial_guess gamma turn_rate) verbose (lower_bounds, upper_bounds)
    = inr r ->
    exists ws',
      snd (run ls
             (steady_state_flight_trim wind2body atm
                linear_and_angular_momentum_eqs aircraft h TAS gamma
                turn_rate None verbose) ws)
      = ws ++ ws' /\
      (In convergence_warning ws' <-> not_converged r) /\
      (In power_warning ws' <->
       not_converged r /\ tv_delta_t (res_x r) > 0.99).
Proof.
  intros aircraft h TAS gamma turn_rate verbose ls ws r Hls.
  rewrite run_trim_default, Hls.
  destruct (run_diagnose ls r ws) as [ws' [Hd Hw]].
  exists ws'. split; [ | exact Hw].
  rewrite run_bind, Hd.
  apply effect_free_run_warnings, effect_free_reconstruct.
Qed.

(** C7: in every trim result that is returned, alpha and beta are those
    the optimizer returned, phi is 0 when |turn_rate| < 1e-8 and what
    [turn_coord_cons] returns on them otherwise, and theta is what
    [rate_of_climb_cons] returns on them and phi.  The optimizer is given
    the six trim variables only. *)
Theorem returned_phi_theta_from_closure :
  forall (aircraft : Aircraft) (h TAS gamma turn_rate : R)
         (dyn_eqs : option dynamics) (verbose : Z)
         (ls : optimizer) (ws ws' : list warning) (out : TrimResult),
    run ls
      (steady_state_flight_trim wind2body atm linear_and_angular_momentum_eqs
         aircraft h TAS gamma turn_rate dyn_eqs verbose) ws
    = (inr out, ws') ->
    exists r : OptimizeResult,
      ls (fun x =>
            fst (run ls (func wind2body atm x h TAS gamma turn_rate
                           aircraft linear_and_angular_momentum_eqs) []))
         (initial_guess gamma turn_rate) verbose (lower_bounds, upper_bounds)
      = inr r /\
      tr_alpha out = tv_alpha (res_x r) /\
      tr_beta out = tv_beta (res_x r) /\
      (Rabs turn_rate < 1e-8 -> tr_phi out = 0) /\
      (~ Rabs turn_rate < 1e-8 ->
       turn_coord_cons turn_rate (tr_alpha out) (tr_beta out) TAS gamma
       = Ret (tr_phi out)) /\
      rate_of_climb_cons gamma (tr_alpha out) (tr_beta out) (tr_phi out)
      = Ret (tr_theta out).
Proof.
  intros aircraft h TAS gamma turn_rate dyn_eqs verbose ls ws ws' out H.
  apply run_trim_returns in H. destruct H as [_ [r [Hls Hrec]]].
  exists r. split; [exact Hls | ].
  unfold reconstruct in Hrec. cbv zeta in Hrec.
  apply bind_Ret_inv in Hrec. destruct Hrec as [phi [Hphi Hrec]].
  apply bind_Ret_inv in Hrec. destruct Hrec as [theta [Htheta Hrec]].
  inversion Hrec; subst out; clear Hrec. simpl.
  repeat split; try exact Htheta.
  - intros Hsmall. destruct (Rlt_dec (Rabs turn_rate) 1e-8) as [ | n].
    + now inversion Hphi.
    + contradiction.
  - intros Hlarge. destruct (Rlt_dec (Rabs turn_rate) 1e-8).
    + contradiction.
    + exact Hphi.
Qed.

(** C10, amended: the pitch rate and the yaw rate are products of the
    same three factors, multiplied in different orders:
    q = (turn_rate sin(phi)) cos(theta) and
    r = (turn_rate cos(theta)) sin(phi), in the angular velocity of every
    returned trim result and in the velocity vector that the residual
    function hands to the dynamics, phi and theta being those of the
    closure functions.  In exact arithmetic the two are equal; on
    binary64 floats each is the product rounded in its own order. *)
Theorem pitch_and_yaw_rate_same_factors :
  (forall (aircraft : Aircraft) (h TAS gamma turn_rate : R),
    (forall (dyn_eqs : option dynamics) (verbose : Z) (ls : optimizer)
            (ws ws' : list warning) (out : TrimResult),
        run ls
          (steady_state_flight_trim wind2body atm
             linear_and_angular_momentum_eqs aircraft h TAS gamma turn_rate
             dyn_eqs verbose) ws
        = (inr out, ws') ->
        tr_ang_vel out
        = [- turn_rate * sin (tr_theta out);
           turn_rate * sin (tr_phi out) * cos (tr_theta out);
           turn_rate * cos (tr_theta out) * sin (tr_phi out)] /\
        turn_rate * sin (tr_phi out) * cos (tr_theta out)
        = turn_rate * cos (tr_theta out) * sin (tr_phi out)) /\
    (forall (x : TrimVariables) (d : dynamics) (output : array),
        func wind2body atm x h TAS gamma turn_rate aircraft d = Ret output ->
        exists phi theta,
          (if Rlt_dec (Rabs turn_rate) 1e-8 then Ret 0
           else turn_coord_cons turn_rate (tv_alpha x) (tv_beta x) TAS gamma)
          = Ret phi /\
          rate_of_climb_cons gamma (tv_alpha x) (tv_beta x) phi = Ret theta /\
          (let forces_and_moments :=
             get_forces_and_moments aircraft TAS (snd (fst (atm h)))
               (tv_alpha x) (tv_beta x) (tv_delta_e x) 0 (tv_delta_ail x)
               (tv_delta_r x) (tv_delta_t x) [theta; phi; 0] in
           output
           = d 0 (wind2body (TAS, 0, 0) (tv_alpha x) (tv_beta x)
                    ++ [- turn_rate * sin theta;
                        turn_rate * sin phi * cos theta;
                        turn_rate * cos theta * sin phi])
               (fst (mass_and_inertial_data aircraft))
               (snd (mass_and_inertial_data aircraft))
               (fst forces_and_moments) (snd forces_and_moments)) /\
          turn_rate * sin phi * cos theta = turn_rate * cos theta * sin phi))
  /\
  (forall (libm_sin libm_cos : float -> float)
          (turn_rate phi theta p q r : float),
      Binary64.angular_velocity libm_sin libm_cos turn_rate phi theta
      = Ret (p, q, r) ->
      q = PrimFloat.mul (PrimFloat.mul turn_rate (libm_sin phi))
            (libm_cos theta) /\
      r = PrimFloat.mul (PrimFloat.mul turn_rate (libm_cos theta))
            (libm_sin phi)).
Proof.
  split; [intros aircraft h TAS gamma turn_rate; split | ].
  - intros dyn_eqs verbose ls ws ws' out H.
    apply run_trim_returns in H. destruct H as [_ [r [_ Hrec]]].
    unfold reconstruct in Hrec. cbv zeta in Hrec.
    apply bind_Ret_inv in Hrec. destruct Hrec as [phi [_ Hrec]].
    apply bind_Ret_inv in Hrec. destruct Hrec as [theta [_ Hrec]].
    inversion Hrec; subst out; clear Hrec. simpl.
    split; [reflexivity | ring].
  - intros x d output H.
    unfold func in H. cbv zeta in H.
    apply bind_Ret_inv in H. destruct H as [phi [Hphi H]].
    apply bind_Ret_inv in H. destruct H as [theta [Htheta H]].
    exists phi, theta.
    split; [exact Hphi | ]. split; [exact Htheta | ].
    split; [ | ring]. cbv zeta.
    destruct (atm h) as [[[T p] rho] a]. cbn [fst snd].
    destruct (get_forces_and_moments _ _ _ _ _ _ _ _ _ _ _)
      as [forces moments].
    destruct (mass_and_inertial_data aircraft) as [mass inertia].
    cbn [fst snd]. congruence.
  - intros libm_sin libm_cos tr phi theta p q r H.
    apply angular_velocity_factors in H. tauto.
Qed.

End Solver.

(** ** The closure functions on concrete angles *)

Lemma PI_upper_bound : PI < 7 / 2.
Proof.
  pose proof (PI_ineq 1) as [_ H].
  unfold tg_alt, PI_tg in H. simpl in H. lra.
Qed.

Lemma PI_lower_bound : 3 < PI.
Proof. pose proof PI2_3_2. lra. Qed.

(** cos(1/2) is about 0.878, sin(3/2) about 0.997. *)
Lemma cos_half_lt_sin_three_halves : 0 < cos (1 / 2) < sin (3 / 2).
Proof.
  pose proof PI_upper_bound. pose proof PI_lower_bound.
  split.
  - apply cos_gt_0; lra.
  - rewrite <- (sin_shift (1 / 2)).
    apply sin_increasing_1; lra.
Qed.

Lemma Rabs_three_halves_not_small : ~ Rabs (3 / 2) < 1e-8.
Proof. rewrite Rabs_pos_eq; lra. Qed.

Lemma Rabs_zero_small : Rabs 0 < 1e-8.
Proof. rewrite Rabs_R0. lra. Qed.

Lemma Rabs_turn_rate_not_small : ~ Rabs 0.05 < 1e-8.
Proof. rewrite Rabs_pos_eq; lra. Qed.

(** Level flight with no incidence and no sideslip: theta is 0 whatever
    the bank angle, and phi is atan(G) in a turn. *)
Lemma rate_of_climb_cons_level (phi : R) :
  rate_of_climb_cons 0 0 0 phi = Ret 0.
Proof.
  rewrite rate_of_climb_cons_cases. cbv zeta. rewrite sin_0, cos_0.
  destruct (Rlt_dec _ 0) as [H | _]; [lra | ].
  destruct (Req_dec_T _ 0) as [H | _]; [lra | ].
  f_equal. transitivity (atan 0); [ | apply atan_0].
  f_equal. unfold Rdiv. ring.
Qed.

Lemma turn_coord_cons_level (turn_rate TAS : R) :
  turn_coord_cons turn_rate 0 0 TAS 0 = Ret (atan (turn_rate * TAS / 9.81)).
Proof.
  rewrite (turn_coord_cons_fast _ _ _ _ _ Rabs_zero_small). cbv zeta.
  rewrite sin_0, cos_0.
  destruct (Req_dec_T _ 0) as [H | _]; [lra | ].
  do 2 f_equal. unfold Rdiv. rewrite !Rmult_0_r, Rminus_0_r, Rinv_1. ring.
Qed.

(** The residual of the sample aircraft at full throttle. *)
Lemma example_residual_full_throttle (TAS turn_rate : R) :
  func example_wind2body example_atm full_throttle 1000 TAS 0 turn_rate
    example_aircraft example_dynamics
  = Ret [1 - 1; 0; 0; 0; 0; 0].
Proof.
  unfold func. cbv zeta.
  cbn [full_throttle tv_alpha tv_beta].
  destruct (Rlt_dec (Rabs turn_rate) 1e-8);
    [ | rewrite turn_coord_cons_level];
    cbn [bind]; rewrite rate_of_climb_cons_level; reflexivity.
Qed.

Lemma example_optimizer_result (TAS turn_rate : R) (v : Z)
    (x0 : TrimVariables) (b : TrimVariables * TrimVariables) :
  terminate_at full_throttle
    (fun x => fst (run (terminate_at full_throttle)
                     (func example_wind2body example_atm x 1000 TAS 0
                        turn_rate example_aircraft example_dynamics) []))
    x0 v b
  = inr (mkOptimizeResult full_throttle [1 - 1; 0; 0; 0; 0; 0]
           (0.5 * fold_right (fun y s => y ^ 2 + s) 0
                    [1 - 1; 0; 0; 0; 0; 0])).
Proof.
  unfold terminate_at at 1.
  rewrite example_residual_full_throttle. reflexivity.
Qed.

Lemma example_converged :
  ~ not_converged
      (mkOptimizeResult full_throttle [1 - 1; 0; 0; 0; 0; 0]
         (0.5 * fold_right (fun y s => y ^ 2 + s) 0 [1 - 1; 0; 0; 0; 0; 0])).
Proof.
  unfold not_converged. simpl. intros [H | H].
  - lra.
  - rewrite Exists_exists in H. destruct H as [x [Hin Hx]].
    assert (Hx0 : x = 0).
    { simpl in Hin. repeat destruct Hin as [Hin | Hin]; lra. }
    subst x. rewrite Rabs_R0 in Hx. lra.
Qed.

(** The sample solve: level flight at 1000 m, no turn, with the optimizer
    ending at full throttle.  It returns the trimmed state and emits no
    warning, whatever the airspeed. *)
Lemma example_run (TAS : R) :
  run (terminate_at full_throttle)
    (steady_state_flight_trim example_wind2body example_atm example_dynamics
       example_aircraft 1000 TAS 0 0 None 0) []
  = (inr (mkTrimResult [TAS; 0; 0]
            [- 0 * sin 0; 0 * sin 0 * cos 0; 0 * cos 0 * sin 0]
            0 0 0 0 (0, 0, 0, 1)), []).
Proof.
  rewrite run_trim_default, example_optimizer_result.
  rewrite run_bind, (run_diagnose_converged _ _ _ example_converged).
  unfold reconstruct. cbv zeta.
  destruct (Rlt_dec (Rabs 0) 1e-8) as [_ | H];
    [ | contradiction (H Rabs_zero_small)].
  cbn [bind full_throttle res_x tv_alpha tv_beta].
  rewrite rate_of_climb_cons_level. reflexivity.
Qed.

(** The sample solve in a level turn: 120 m/s and 0.05 rad/s, so that
    G = 0.05 . 120 / 9.81 and the bank angle is atan(G). *)
Lemma example_turn_run :
  run (terminate_at full_throttle)
    (steady_state_flight_trim example_wind2body example_atm example_dynamics
       example_aircraft 1000 120 0 0.05 None 0) []
  = (inr (mkTrimResult [120; 0; 0]
            [- (0.05) * sin 0;
             0.05 * sin (atan (0.05 * 120 / 9.81)) * cos 0;
             0.05 * cos 0 * sin (atan (0.05 * 120 / 9.81))]
            0 (atan (0.05 * 120 / 9.81)) 0 0 (0, 0, 0, 1)), []).
Proof.
  rewrite run_trim_default, example_optimizer_result.
  rewrite run_bind, (run_diagnose_converged _ _ _ example_converged).
  unfold reconstruct. cbv zeta.
  destruct (Rlt_dec (Rabs 0.05) 1e-8) as [H | _];
    [contradiction (Rabs_turn_rate_not_small H) | ].
  cbn [full_throttle res_x tv_alpha tv_beta].
  rewrite turn_coord_cons_level. cbn [bind].
  rewrite rate_of_climb_cons_level. reflexivity.
Qed.

(** A steep climb at the edge of the sideslip bound: gamma = 3/2 and
    beta = 1/2 put sin(gamma) above cos(beta), and the argument of the
    square root of [turn_coord_cons] below zero. *)
Lemma turn_coord_cons_steep_climb :
  turn_coord_cons 0 0 (1 / 2) 100 (3 / 2) = Raise math_domain_error.
Proof.
  rewrite (turn_coord_cons_general _ _ _ _ _ Rabs_three_halves_not_small).
  cbv zeta.
  pose proof cos_half_lt_sin_three_halves as [H0 H1].
  destruct (Req_dec_T (cos (1 / 2)) 0) as [H | _]; [lra | ].
  destruct (Rlt_dec _ 0) as [_ | H]; [reflexivity | ].
  exfalso. apply H.
  assert (Hb : 1 < sin (3 / 2) / cos (1 / 2)).
  { apply Rmult_lt_reg_r with (cos (1 / 2)); [assumption | ].
    unfold Rdiv. rewrite Rmult_assoc, Rinv_l; lra. }
  replace (0 * 100 / 9.81) with 0 by (unfold Rdiv; ring).
  nra.
Qed.

(** C1, counterexample: a call with TAS = 0 is not rejected.  The solver
    does not raise: it calls the optimizer, and with the sample
    collaborators the solve returns a trim result. *)
Lemma zero_TAS_not_rejected :
  0 <= 0 /\
  ~ (exists e,
        steady_state_flight_trim example_wind2body example_atm
          example_dynamics example_aircraft 1000 0 0 0 None 0 = Raise e /\
        exn_class e = "InvalidFlightCondition"%string) /\
  (exists f x0 bounds k,
      steady_state_flight_trim example_wind2body example_atm
        example_dynamics example_aircraft 1000 0 0 0 None 0
      = LeastSquares f x0 0 bounds k) /\
  exists out,
    run (terminate_at full_throttle)
      (steady_state_flight_trim example_wind2body example_atm
         example_dynamics example_aircraft 1000 0 0 0 None 0) []
    = (inr out, []).
Proof.
  split; [lra | ]. split; [ | split].
  - intros [e [H _]]. rewrite trim_default in H. discriminate H.
  - rewrite trim_default. do 4 eexists. reflexivity.
  - eexists. apply example_run.
Qed.

(** C2, counterexample: a solve that ends at full throttle with a zero
    residual: the throttle is above 0.99 and no warning is emitted, the
    power warning no more than the other. *)
Lemma full_throttle_without_power_warning :
  exists out,
    run (terminate_at full_throttle)
      (steady_state_flight_trim example_wind2body example_atm
         example_dynamics example_aircraft 1000 100 0 0 None 0) []
    = (inr out, []) /\
    snd (tr_control_vector out) > 0.99 /\
    ~ In power_warning [].
Proof.
  eexists. split; [apply example_run | ].
  split; [simpl; lra | intros []].
Qed.


(** C4, counterexample: a solve without dynamics supplied runs, on the
    default dynamics; and a call that supplies the very same dynamics does
    not use them. *)
Lemma default_dynamics_used_when_omitted :
  (exists f x0 bounds k,
      steady_state_flight_trim example_wind2body example_atm
        example_dynamics example_aircraft 1000 100 0 0 None 0
      = LeastSquares f x0 0 bounds k /\
      forall x,
        f x = func example_wind2body example_atm x 1000 100 0 0
                example_aircraft example_dynamics) /\
  (exists out,
      run (terminate_at full_throttle)
        (steady_state_flight_trim example_wind2body example_atm
           example_dynamics example_aircraft 1000 100 0 0 None 0) []
      = (inr out, [])) /\
  steady_state_flight_trim example_wind2body example_atm
    example_dynamics example_aircraft 1000 100 0 0 (Some example_dynamics) 0
  = Raise (UnboundLocalError "dynamic_eqs").
Proof.
  split; [ | split].
  - rewrite trim_default. do 4 eexists.
    split; [reflexivity | intros x; reflexivity].
  - eexists. apply example_run.
  - apply trim_supplied.
Qed.


(** C10, counterexample: a turn at 0.05 rad/s and 100 m/s with an
    incidence of 0.07 rad, no sideslip and no climb.  On binary64 floats
    the closure functions give phi = 0.47235751073441795 and
    theta = 0.06235593782405076, and the pitch rate and the yaw rate
    differ in the last bit: q = 0.022705131945426556 and
    r = 0.022705131945426553. *)
Lemma pitch_rate_differs_from_yaw_rate :
  exists phi theta p q r : float,
    Binary64.attitude_and_angular_velocity example_sin example_cos
      example_tan example_atan example_pow 0.05 0.07 0 100 0
    = Ret (phi, theta, (p, q, r)) /\
    phi = 0x1.e3b1aff27f46fp-2%float /\
    theta = 0x1.fed1e1354d79ap-5%float /\
    q = 0x1.740039ca0bd3fp-6%float /\
    r = 0x1.740039ca0bd3ep-6%float /\
    PrimFloat.eqb q r = false /\
    q <> r.
Proof.
  do 5 eexists. split; [vm_compute; reflexivity | ].
  repeat (split; [reflexivity | ]).
  intros E.
  apply (f_equal (fun x => PrimFloat.eqb x 0x1.740039ca0bd3ep-6)) in E.
  vm_compute in E. discriminate E.
Qed.

(** ** The theorems at concrete inputs *)

Lemma Rabs_PI6_not_small : ~ Rabs (PI / 6) < 1e-8.
Proof. pose proof PI_lower_bound. rewrite Rabs_pos_eq; lra. Qed.

(** A climbing turn with no incidence and no sideslip, gamma = pi/6:
    every formula of the general branch is in its domain. *)
Lemma climbing_turn_in_domain :
  ~ turn_coord_domain_violation 0.05 0 0 120 (PI / 6).
Proof.
  unfold turn_coord_domain_violation. cbv zeta.
  destruct (Rlt_dec (Rabs (PI / 6)) 1e-8) as [H | _];
    [contradiction (Rabs_PI6_not_small H) | ].
  rewrite sin_PI6, sin_0, cos_0, tan_0.
  set (G := 0.05 * 120 / 9.81).
  assert (HG : 0 <= G ^ 2) by apply pow2_ge_0.
  intros [H | [H | [H | H]]]; lra.
Qed.

Lemma cos_0_nonzero : cos 0 <> 0.
Proof. rewrite cos_0. lra. Qed.

(** C2 at the sample solve. *)
Lemma power_warning_requires_convergence_warning_witness :
  exists ws',
    snd (run (terminate_at full_throttle)
           (steady_state_flight_trim example_wind2body example_atm
              example_dynamics example_aircraft 1000 100 0 0 None 0) [])
    = [] ++ ws' /\
    (In convergence_warning ws' <->
     not_converged
       (mkOptimizeResult full_throttle [1 - 1; 0; 0; 0; 0; 0]
          (0.5 * fold_right (fun y s => y ^ 2 + s) 0
                   [1 - 1; 0; 0; 0; 0; 0]))) /\
    (In power_warning ws' <->
     not_converged
       (mkOptimizeResult full_throttle [1 - 1; 0; 0; 0; 0; 0]
          (0.5 * fold_right (fun y s => y ^ 2 + s) 0
                   [1 - 1; 0; 0; 0; 0; 0])) /\
     tv_delta_t full_throttle > 0.99).
Proof.
  exact (power_warning_requires_convergence_warning
           example_wind2body example_atm example_dynamics
           example_aircraft 1000 100 0 0 0 (terminate_at full_throttle) []
           _ (example_optimizer_result 100 0 0 _ _)).
Defined.




(** C7 at the sample solve in a level turn. *)
Lemma returned_phi_theta_from_closure_witness :
  exists r : OptimizeResult,
    terminate_at full_throttle
      (fun x => fst (run (terminate_at full_throttle)
                       (func example_wind2body example_atm x 1000 120 0 0.05
                          example_aircraft example_dynamics) []))
      (initial_guess 0 0.05) 0%Z (lower_bounds, upper_bounds)
    = inr r /\
    0 = tv_alpha (res_x r) /\
    0 = tv_beta (res_x r) /\
    (Rabs 0.05 < 1e-8 -> atan (0.05 * 120 / 9.81) = 0) /\
    (~ Rabs 0.05 < 1e-8 ->
     turn_coord_cons 0.05 0 0 120 0 = Ret (atan (0.05 * 120 / 9.81))) /\
    rate_of_climb_cons 0 0 0 (atan (0.05 * 120 / 9.81)) = Ret 0.
Proof.
  exact (returned_phi_theta_from_closure
           example_wind2body example_atm example_dynamics
           example_aircraft 1000 120 0 0.05 None 0 (terminate_at full_throttle)
           [] [] _ example_turn_run).
Defined.

(** C10 at the sample solve in a level turn. *)
Lemma pitch_and_yaw_rate_same_factors_witness :
  exists out,
    run (terminate_at full_throttle)
      (steady_state_flight_trim example_wind2body example_atm example_dynamics
         example_aircraft 1000 120 0 0.05 None 0) []
    = (inr out, []) /\
    tr_ang_vel out
    = [- (0.05) * sin (tr_theta out);
       0.05 * sin (tr_phi out) * cos (tr_theta out);
       0.05 * cos (tr_theta out) * sin (tr_phi out)] /\
    0.05 * sin (tr_phi out) * cos (tr_theta out)
    = 0.05 * cos (tr_theta out) * sin (tr_phi out).
Proof.
  eexists. split; [exact example_turn_run | ].
  exact (proj1 (proj1 (pitch_and_yaw_rate_same_factors
                         example_wind2body example_atm example_dynamics)
                  example_aircraft 1000 120 0 0.05)
           None 0%Z (terminate_at full_throttle) [] [] _ example_turn_run).
Defined.

(** * More of the trimmer *)

(** ** The closure functions *)

(** Closes a branch in which the same test succeeded on one side and
    failed on the other. *)
Ltac same_test :=
  match goal with
  | H : ?x = 0, H' : ?y <> 0 |- _ =>
      exfalso; apply H'; transitivity x; [unfold Rdiv; ring | exact H]
  | H : ?x < 0, H' : ~ ?y < 0 |- _ =>
      exfalso; apply H'; replace y with x by (unfold Rdiv; ring); exact H
  end.


(** X2: mirror symmetry of the turn coordination.  Turning the other way
    with the opposite sideslip gives the opposite bank angle, and raises
    where the original raises. *)
Theorem turn_coord_cons_mirror :
  forall (turn_rate alpha beta TAS gamma : R),
    turn_coord_cons (- turn_rate) alpha (- beta) TAS gamma
    = (phi <- turn_coord_cons turn_rate alpha beta TAS gamma ;;
       Ret (- phi)).
Proof.
  intros turn_rate alpha beta TAS gamma.
  assert (HG : - turn_rate * TAS / 9.81 = - (turn_rate * TAS / 9.81))
    by (unfold Rdiv; ring).
  destruct (Rlt_dec (Rabs gamma) 1e-8) as [Hg | Hg].
  - rewrite !(turn_coord_cons_fast _ _ _ _ _ Hg). cbv zeta.
    rewrite sin_neg, cos_neg, HG.
    set (G := turn_rate * TAS / 9.81).
    replace (cos alpha - - G * sin alpha * - sin beta)
      with (cos alpha - G * sin alpha * sin beta) by ring.
    next_test; [reflexivity | ].
    f_equal. rewrite <- atan_opp. f_equal. unfold Rdiv. ring.
  - rewrite !(turn_coord_cons_general _ _ _ _ _ Hg). cbv zeta.
    rewrite sin_neg, cos_neg, HG.
    set (G := turn_rate * TAS / 9.81).
    replace (1 - - G * tan alpha * - sin beta)
      with (1 - G * tan alpha * sin beta) by ring.
    replace ((- G) ^ 2) with (G ^ 2) by ring.
    replace ((- sin beta) ^ 2) with (sin beta ^ 2) by ring.
    repeat (next_test; try reflexivity).
    f_equal. rewrite <- atan_opp. f_equal. unfold Rdiv. ring.
Qed.

(** X3: symmetries of the climb constraint.  The pitch angle is the same
    for the opposite sideslip and bank, and it is the opposite one for the
    opposite flight-path angle, incidence and sideslip; the exceptions are
    those of the original call. *)
Theorem rate_of_climb_cons_symmetries :
  forall (gamma alpha beta phi : R),
    rate_of_climb_cons gamma alpha (- beta) (- phi)
    = rate_of_climb_cons gamma alpha beta phi /\
    rate_of_climb_cons (- gamma) (- alpha) (- beta) phi
    = (theta <- rate_of_climb_cons gamma alpha beta phi ;; Ret (- theta)).
Proof.
  intros gamma alpha beta phi.
  rewrite !rate_of_climb_cons_cases. cbv zeta.
  rewrite !sin_neg, !cos_neg.
  set (a := cos alpha * cos beta).
  set (b := sin phi * sin beta + cos phi * sin alpha * cos beta).
  replace (- sin phi * - sin beta + cos phi * sin alpha * cos beta)
    with b by (unfold b; ring).
  replace (sin phi * - sin beta + cos phi * - sin alpha * cos beta)
    with (- b) by (unfold b; ring).
  replace ((- sin gamma) ^ 2) with (sin gamma ^ 2) by ring.
  replace ((- b) ^ 2) with (b ^ 2) by ring.
  split; [reflexivity | ].
  repeat (next_test; try reflexivity).
  f_equal. rewrite <- atan_opp. f_equal. unfold Rdiv. ring.
Qed.

Lemma cos_sq_minus_sin_sq (alpha gamma : R) :
  cos alpha ^ 2 - sin gamma ^ 2 = cos (alpha + gamma) * cos (alpha - gamma).
Proof.
  rewrite cos_plus, cos_minus.
  pose proof (sin2_cos2 alpha) as Ha. pose proof (sin2_cos2 gamma) as Hg.
  unfold Rsqr in Ha, Hg. nra.
Qed.

(** X4: with the wings level and no sideslip the pitch angle is the sum of
    the incidence and the flight-path angle: the theta that
    [rate_of_climb_cons] returns for phi = 0 and beta = 0 is
    alpha + gamma, for a flight-path angle and a sum short of the
    vertical. *)
Theorem wings_level_pitch_is_alpha_plus_gamma :
  forall (gamma alpha theta : R),
    - (PI / 2) < gamma < PI / 2 ->
    - (PI / 2) < alpha + gamma < PI / 2 ->
    rate_of_climb_cons gamma alpha 0 0 = Ret theta ->
    theta = alpha + gamma.
Proof.
  intros gamma alpha theta Hg Hp.
  assert (Hcg : 0 < cos gamma) by (apply cos_gt_0; lra).
  assert (Hcp : 0 < cos (alpha + gamma)) by (apply cos_gt_0; lra).
  pose proof (sin2_cos2 alpha) as Ha. pose proof (sin2_cos2 gamma) as Hsg.
  unfold Rsqr in Ha, Hsg.
  rewrite rate_of_climb_cons_cases. cbv zeta. rewrite sin_0, cos_0.
  replace ((cos alpha * 1) ^ 2 - sin gamma ^ 2
           + (0 * 0 + 1 * sin alpha * 1) ^ 2)
    with (cos gamma ^ 2) by nra.
  replace ((cos alpha * 1) ^ 2 - sin gamma ^ 2)
    with (cos (alpha + gamma) * cos (alpha - gamma))
    by (rewrite <- cos_sq_minus_sin_sq; ring).
  destruct (Rlt_dec _ 0) as [H | _]; [discriminate | ].
  destruct (Req_dec_T _ 0) as [H | Hden]; [discriminate | ].
  assert (Hcm : cos (alpha - gamma) <> 0).
  { intros H0. apply Hden. rewrite H0. ring. }
  intros H.
  assert (E : theta
              = atan ((cos alpha * 1 * (0 * 0 + 1 * sin alpha * 1)
                       + sin gamma * sqrt (cos gamma ^ 2))
                      / (cos (alpha + gamma) * cos (alpha - gamma))))
    by congruence.
  rewrite E. transitivity (atan (tan (alpha + gamma)));
    [ | apply atan_tan; lra].
  f_equal. rewrite sqrt_pow2 by lra.
  assert (HN : cos alpha * 1 * (0 * 0 + 1 * sin alpha * 1)
               + sin gamma * cos gamma
               = sin (alpha + gamma) * cos (alpha - gamma)).
  { rewrite sin_plus, cos_minus.
    transitivity
      (sin alpha * cos alpha * (sin gamma * sin gamma + cos gamma * cos gamma)
       + sin gamma * cos gamma
         * (sin alpha * sin alpha + cos alpha * cos alpha));
      [rewrite Ha, Hsg | ]; ring. }
  rewrite HN. unfold tan. field. lra.
Qed.

(** ** The box and the solver *)

Lemma np_sign_range (x : R) : np_sign x = -1 \/ np_sign x = 0 \/ np_sign x = 1.
Proof.
  unfold np_sign. destruct (Rlt_dec x 0); [auto | ].
  destruct (Rlt_dec 0 x); auto.
Qed.

(** X5: the initial guess of the solver is inside the bounds it hands to
    the optimizer, strictly, whatever the signs of the flight-path angle
    and of the turn rate. *)
Theorem initial_guess_within_bounds :
  forall (gamma turn_rate : R),
    within_bounds lower_bounds upper_bounds (initial_guess gamma turn_rate) /\
    tv_alpha lower_bounds < tv_alpha (initial_guess gamma turn_rate)
      < tv_alpha upper_bounds /\
    tv_beta lower_bounds < tv_beta (initial_guess gamma turn_rate)
      < tv_beta upper_bounds /\
    tv_delta_t lower_bounds < tv_delta_t (initial_guess gamma turn_rate)
      < tv_delta_t upper_bounds.
Proof.
  intros gamma turn_rate.
  unfold within_bounds, initial_guess, lower_bounds, upper_bounds. simpl.
  destruct (np_sign_range gamma) as [Hg | [Hg | Hg]]; rewrite Hg;
    destruct (np_sign_range turn_rate) as [Ht | [Ht | Ht]]; rewrite Ht;
    repeat split; lra.
Qed.

Lemma cos_one_pos : 0 < cos 1.
Proof. pose proof PI2_1. apply cos_gt_0; lra. Qed.

Lemma cos_half_pos : 0 < cos (1 / 2).
Proof. pose proof PI2_1. apply cos_gt_0; lra. Qed.

(** The cosine on an interval around zero is at least the one at its
    ends. *)
Lemma cos_ge_on_interval (b x : R) :
  0 <= b <= PI -> - b <= x <= b -> cos b <= cos x.
Proof.
  intros Hb Hx. destruct (Rle_dec 0 x) as [H0 | H0].
  - apply cos_decr_1; lra.
  - rewrite <- (cos_neg x). apply cos_decr_1; lra.
Qed.

(** In the box, for a flight-path angle whose sine is below
    cos(1) cos(1/2) in magnitude, the climb constraint is in its domain
    whatever the bank angle. *)
Lemma rate_of_climb_cons_in_box (gamma phi : R) (x : TrimVariables) :
  within_bounds lower_bounds upper_bounds x ->
  sin gamma ^ 2 < (cos 1 * cos (1 / 2)) ^ 2 ->
  ~ rate_of_climb_domain_violation gamma (tv_alpha x) (tv_beta x) phi.
Proof.
  intros [Ha [Hb _]] Hg. simpl in Ha, Hb.
  pose proof PI2_1 as HPI.
  assert (H1 : cos 1 <= cos (tv_alpha x))
    by (apply cos_ge_on_interval; lra).
  assert (H2 : cos (1 / 2) <= cos (tv_beta x))
    by (apply cos_ge_on_interval; lra).
  pose proof cos_one_pos. pose proof cos_half_pos.
  unfold rate_of_climb_domain_violation. cbv zeta.
  set (a := cos (tv_alpha x) * cos (tv_beta x)).
  set (b := sin phi * sin (tv_beta x)
            + cos phi * sin (tv_alpha x) * cos (tv_beta x)).
  assert (Ha' : cos 1 * cos (1 / 2) <= a)
    by (unfold a; apply Rmult_le_compat; lra).
  assert (Hb' : 0 <= b ^ 2) by apply pow2_ge_0.
  assert (Hc : 0 < cos 1 * cos (1 / 2)) by (apply Rmult_lt_0_compat; lra).
  assert (Haa : (cos 1 * cos (1 / 2)) ^ 2 <= a ^ 2)
    by (apply pow_incr; lra).
  intros [H' | H']; lra.
Qed.

Section SolverBox.

Variable wind2body : R * R * R -> R -> R -> array.
Variable atm : R -> R * R * R * R.
Variable linear_and_angular_momentum_eqs : dynamics.

(** X6: without a turn, and for a flight-path angle whose sine is below
    cos(1) cos(1/2) (about 0.47) in magnitude, the residual function is
    defined on the whole box of the optimizer: at no point within the
    bounds does it raise. *)
Theorem func_defined_on_box :
  forall (x : TrimVariables) (h TAS gamma turn_rate : R)
         (aircraft : Aircraft) (d : dynamics),
    Rabs turn_rate < 1e-8 ->
    sin gamma ^ 2 < (cos 1 * cos (1 / 2)) ^ 2 ->
    within_bounds lower_bounds upper_bounds x ->
    exists output,
      func wind2body atm x h TAS gamma turn_rate aircraft d = Ret output.
Proof.
  intros x h TAS gamma turn_rate aircraft d Ht Hg Hx.
  unfold func. cbv zeta.
  destruct (Rlt_dec (Rabs turn_rate) 1e-8); [ | contradiction].
  cbn [bind].
  destruct (rate_of_climb_cons_outcome gamma (tv_alpha x) (tv_beta x) 0)
    as [_ Hr].
  destruct (Hr (rate_of_climb_cons_in_box gamma 0 x Hx Hg)) as [theta Hth].
  rewrite Hth. cbn [bind].
  destruct (atm h) as [[[T p] rho] a].
  destruct (get_forces_and_moments _ _ _ _ _ _ _ _ _ _ _)
    as [forces moments].
  destruct (mass_and_inertial_data aircraft) as [mass inertia].
  eexists. reflexivity.
Qed.

(** X7: under the same conditions a solve whose optimizer returns a point
    within the bounds returns a trim result: the reconstruction of the
    state does not raise, converged or not. *)
Theorem trim_returns_without_turn :
  forall (aircraft : Aircraft) (h TAS gamma turn_rate : R) (verbose : Z)
         (ls : optimizer) (ws : list warning) (r : OptimizeResult),
    Rabs turn_rate < 1e-8 ->
    sin gamma ^ 2 < (cos 1 * cos (1 / 2)) ^ 2 ->
    ls (fun x =>
          fst (run ls (func wind2body atm x h TAS gamma turn_rate
                         aircraft linear_and_angular_momentum_eqs) []))
       (initial_guess gamma turn_rate) verbose (lower_bounds, upper_bounds)
    = inr r ->
    within_bounds lower_bounds upper_bounds (res_x r) ->
    exists out ws',
      run ls
        (steady_state_flight_trim wind2body atm
           linear_and_angular_momentum_eqs aircraft h TAS gamma turn_rate
           None verbose) ws
      = (inr out, ws') /\
      tr_phi out = 0.
Proof.
  intros aircraft h TAS gamma turn_rate verbose ls ws r Ht Hg Hls Hx.
  rewrite run_trim_default, Hls, run_bind.
  destruct (run_diagnose ls r ws) as [wd [Hd _]]. rewrite Hd.
  unfold reconstruct. cbv zeta.
  destruct (Rlt_dec (Rabs turn_rate) 1e-8); [ | contradiction].
  cbn [bind].
  destruct (rate_of_climb_cons_outcome gamma (tv_alpha (res_x r))
              (tv_beta (res_x r)) 0) as [_ Hr].
  destruct (Hr (rate_of_climb_cons_in_box gamma 0 (res_x r) Hx Hg))
    as [theta Hth].
  rewrite Hth. cbn [bind run].
  do 2 eexists. split; reflexivity.
Qed.

End SolverBox.

(** ** What a solve gives back *)

Lemma atan_range (x : R) : - (PI / 2) < atan x < PI / 2.
Proof. pose proof (atan_bound x). lra. Qed.

Lemma turn_coord_cons_range (turn_rate alpha beta TAS gamma phi : R) :
  turn_coord_cons turn_rate alpha beta TAS gamma = Ret phi ->
  - (PI / 2) < phi < PI / 2.
Proof.
  destruct (Rlt_dec (Rabs gamma) 1e-8) as [Hg | Hg].
  - rewrite (turn_coord_cons_fast _ _ _ _ _ Hg). cbv zeta.
    next_test; intros H; inversion H. apply atan_range.
  - rewrite (turn_coord_cons_general _ _ _ _ _ Hg). cbv zeta.
    repeat (next_test; try discriminate).
    intros H; inversion H. apply atan_range.
Qed.

Lemma rate_of_climb_cons_range (gamma alpha beta phi theta : R) :
  rate_of_climb_cons gamma alpha beta phi = Ret theta ->
  - (PI / 2) < theta < PI / 2.
Proof.
  rewrite rate_of_climb_cons_cases. cbv zeta.
  repeat (next_test; try discriminate).
  intros H; inversion H. apply atan_range.
Qed.

Lemma effect_free_outcome {A : Type} (p : prog A) (ls1 ls2 : optimizer)
    (ws1 ws2 : list warning) :
  effect_free p -> fst (run ls1 p ws1) = fst (run ls2 p ws2).
Proof.
  intros Hp. destruct (effect_free_run p Hp) as [o Ho].
  rewrite !Ho. reflexivity.
Qed.

Section SolverOutcome.

Variable wind2body : R * R * R -> R -> R -> array.
Variable atm : R -> R * R * R * R.
Variable linear_and_angular_momentum_eqs : dynamics.

(** X8: in every trim result that is returned the bank angle and the
    pitch angle are strictly between -pi/2 and pi/2, the cosine of the
    pitch angle is positive, and the roll rate is at most the turn rate in
    magnitude. *)
Theorem returned_attitude_short_of_vertical :
  forall (aircraft : Aircraft) (h TAS gamma turn_rate : R)
         (dyn_eqs : option dynamics) (verbose : Z)
         (ls : optimizer) (ws ws' : list warning) (out : TrimResult),
    run ls
      (steady_state_flight_trim wind2body atm linear_and_angular_momentum_eqs
         aircraft h TAS gamma turn_rate dyn_eqs verbose) ws
    = (inr out, ws') ->
    - (PI / 2) < tr_phi out < PI / 2 /\
    - (PI / 2) < tr_theta out < PI / 2 /\
    0 < cos (tr_theta out) /\
    Rabs (nth 0 (tr_ang_vel out) 0) <= Rabs turn_rate.
Proof.
  intros aircraft h TAS gamma turn_rate dyn_eqs verbose ls ws ws' out H.
  apply run_trim_returns in H. destruct H as [_ [r [_ Hrec]]].
  unfold reconstruct in Hrec. cbv zeta in Hrec.
  apply bind_Ret_inv in Hrec. destruct Hrec as [phi [Hphi Hrec]].
  apply bind_Ret_inv in Hrec. destruct Hrec as [theta [Htheta Hrec]].
  inversion Hrec; subst out; clear Hrec. simpl.
  assert (Hth : - (PI / 2) < theta < PI / 2)
    by (eapply rate_of_climb_cons_range; exact Htheta).
  split; [ | split; [exact Hth | split; [apply cos_gt_0; lra | ]]].
  - destruct (Rlt_dec (Rabs turn_rate) 1e-8).
    + inversion Hphi. pose proof PI_RGT_0. lra.
    + eapply turn_coord_cons_range; exact Hphi.
  - rewrite Rabs_mult, Rabs_Ropp.
    pose proof (SIN_bound theta) as Hs.
    assert (Hs' : Rabs (sin theta) <= 1) by (apply Rabs_le; lra).
    pose proof (Rabs_pos turn_rate). nra.
Qed.

(** X9: the state a solve returns depends on the optimizer's result
    through the trimmed parameters only.  Two solves of the same flight
    condition whose optimizers end at the same point have the same
    outcome, whatever cost and residual they report and whatever was
    warned. *)
Theorem outcome_depends_on_trimmed_params_only :
  forall (aircraft : Aircraft) (h TAS gamma turn_rate : R) (verbose : Z)
         (ls1 ls2 : optimizer) (ws1 ws2 : list warning)
         (r1 r2 : OptimizeResult),
    ls1 (fun x =>
           fst (run ls1 (func wind2body atm x h TAS gamma turn_rate
                           aircraft linear_and_angular_momentum_eqs) []))
        (initial_guess gamma turn_rate) verbose (lower_bounds, upper_bounds)
    = inr r1 ->
    ls2 (fun x =>
           fst (run ls2 (func wind2body atm x h TAS gamma turn_rate
                           aircraft linear_and_angular_momentum_eqs) []))
        (initial_guess gamma turn_rate) verbose (lower_bounds, upper_bounds)
    = inr r2 ->
    res_x r1 = res_x r2 ->
    fst (run ls1
           (steady_state_flight_trim wind2body atm
              linear_and_angular_momentum_eqs aircraft h TAS gamma
              turn_rate None verbose) ws1)
    = fst (run ls2
             (steady_state_flight_trim wind2body atm
                linear_and_angular_momentum_eqs aircraft h TAS gamma
                turn_rate None verbose) ws2).
Proof.
  intros aircraft h TAS gamma turn_rate verbose ls1 ls2 ws1 ws2 r1 r2
    H1 H2 Hx.
  rewrite !run_trim_default, H1, H2, !run_bind.
  destruct (run_diagnose ls1 r1 ws1) as [wd1 [Hd1 _]].
  destruct (run_diagnose ls2 r2 ws2) as [wd2 [Hd2 _]].
  rewrite Hd1, Hd2.
  assert (Hrec : reconstruct wind2body TAS gamma turn_rate r1
                 = reconstruct wind2body TAS gamma turn_rate r2)
    by (unfold reconstruct; rewrite Hx; reflexivity).
  rewrite Hrec. apply effect_free_outcome, effect_free_reconstruct.
Qed.

(** X10: the exceptions of a solve.  A solve that raises was given
    dynamics and raises [UnboundLocalError], or lets through the exception
    of the optimizer, with no warning emitted, or raises the [ValueError]
    or [ZeroDivisionError] of a closure function while it reconstructs the
    state. *)
Theorem trim_exceptions :
  forall (aircraft : Aircraft) (h TAS gamma turn_rate : R)
         (dyn_eqs : option dynamics) (verbose : Z)
         (ls : optimizer) (ws ws' : list warning) (e : exn),
    run ls
      (steady_state_flight_trim wind2body atm linear_and_angular_momentum_eqs
         aircraft h TAS gamma turn_rate dyn_eqs verbose) ws
    = (inl e, ws') ->
    (dyn_eqs <> None /\ e = UnboundLocalError "dynamic_eqs" /\ ws' = ws) \/
    (dyn_eqs = None /\
     ls (fun x =>
           fst (run ls (func wind2body atm x h TAS gamma turn_rate
                          aircraft linear_and_angular_momentum_eqs) []))
        (initial_guess gamma turn_rate) verbose (lower_bounds, upper_bounds)
     = inl e /\ ws' = ws) \/
    (dyn_eqs = None /\
     (e = ValueError "math domain error" \/
      e = ZeroDivisionError "float division by zero")).
Proof.
  intros aircraft h TAS gamma turn_rate dyn_eqs verbose ls ws ws' e.
  destruct dyn_eqs as [d | ].
  - rewrite trim_supplied. simpl. intros H; inversion H.
    left. repeat split. discriminate.
  - rewrite run_trim_default.
    destruct (ls _ (initial_guess gamma turn_rate) verbose
                 (lower_bounds, upper_bounds)) as [e' | r] eqn:Hls.
    + intros H; inversion H. right; left. auto.
    + rewrite run_bind.
      destruct (run_diagnose ls r ws) as [wd [Hd _]]. rewrite Hd.
      intros H. right; right. split; [reflexivity | ].
      unfold reconstruct in H. cbv zeta in H.
      set (alpha := tv_alpha (res_x r)) in *.
      set (beta := tv_beta (res_x r)) in *.
      assert (Hphi : exists o,
                 (if Rlt_dec (Rabs turn_rate) 1e-8 then Ret 0
                  else turn_coord_cons turn_rate alpha beta TAS gamma) = o /\
                 ((exists phi, o = Ret phi) \/
                  o = Raise math_domain_error \/
                  o = Raise float_division_by_zero)).
      { eexists. split; [reflexivity | ].
        destruct (Rlt_dec (Rabs turn_rate) 1e-8); [left; eauto | ].
        destruct (turn_coord_cons_outcome turn_rate alpha beta TAS gamma)
          as [Hv Hn].
        destruct (Rlt_dec (Rabs gamma) 1e-8) as [Hg | Hg].
        - rewrite (turn_coord_cons_fast _ _ _ _ _ Hg). cbv zeta.
          next_test; eauto.
        - rewrite (turn_coord_cons_general _ _ _ _ _ Hg). cbv zeta.
          repeat (next_test; eauto). }
      destruct Hphi as [o [Ho [[phi Hp] | [Hp | Hp]]]];
        rewrite Ho, Hp in H; cbn [bind run] in H;
        try (inversion H; auto; fail).
      rewrite rate_of_climb_cons_cases in H. cbv zeta in H.
      revert H.
      repeat (next_test; try (intros H; inversion H; auto; fail)).
Qed.

(** X11: without a turn (|turn_rate| < 1e-8) every returned trim result
    has a zero bank angle and zero pitch and yaw rates; the roll rate is
    - turn_rate sin(theta). *)
Theorem no_turn_no_bank :
  forall (aircraft : Aircraft) (h TAS gamma turn_rate : R)
         (dyn_eqs : option dynamics) (verbose : Z)
         (ls : optimizer) (ws ws' : list warning) (out : TrimResult),
    Rabs turn_rate < 1e-8 ->
    run ls
      (steady_state_flight_trim wind2body atm linear_and_angular_momentum_eqs
         aircraft h TAS gamma turn_rate dyn_eqs verbose) ws
    = (inr out, ws') ->
    tr_phi out = 0 /\
    tr_ang_vel out = [- turn_rate * sin (tr_theta out); 0; 0].
Proof.
  intros aircraft h TAS gamma turn_rate dyn_eqs verbose ls ws ws' out Ht H.
  apply run_trim_returns in H. destruct H as [_ [r [_ Hrec]]].
  unfold reconstruct in Hrec. cbv zeta in Hrec.
  destruct (Rlt_dec (Rabs turn_rate) 1e-8); [ | contradiction].
  cbn [bind] in Hrec.
  apply bind_Ret_inv in Hrec. destruct Hrec as [theta [_ Hrec]].
  inversion Hrec; subst out; clear Hrec. simpl.
  split; [reflexivity | ].
  rewrite sin_0. repeat f_equal; ring.
Qed.

End SolverOutcome.

Section SolverConsistency.

Variable wind2body : R * R * R -> R -> R -> array.
Variable atm : R -> R * R * R * R.
Variable linear_and_angular_momentum_eqs : dynamics.

(** X22: the state that is returned is the one the residual function
    works on.  At the trimmed parameters the residual function, on any
    dynamics, is the derivative of the returned velocities, under the
    forces and moments at the returned incidence, sideslip, controls and
    attitude (theta, phi, 0): the reconstruction at the end of the solver
    and the residual function do not drift apart. *)
Theorem residual_at_returned_state :
  forall (aircraft : Aircraft) (h TAS gamma turn_rate : R)
         (dyn_eqs : option dynamics) (verbose : Z)
         (ls : optimizer) (ws ws' : list warning) (out : TrimResult),
    run ls
      (steady_state_flight_trim wind2body atm linear_and_angular_momentum_eqs
         aircraft h TAS gamma turn_rate dyn_eqs verbose) ws
    = (inr out, ws') ->
    exists r : OptimizeResult,
      ls (fun x =>
            fst (run ls (func wind2body atm x h TAS gamma turn_rate
                           aircraft linear_and_angular_momentum_eqs) []))
         (initial_guess gamma turn_rate) verbose (lower_bounds, upper_bounds)
      = inr r /\
      tr_control_vector out
      = (tv_delta_e (res_x r), tv_delta_ail (res_x r),
         tv_delta_r (res_x r), tv_delta_t (res_x r)) /\
      forall d : dynamics,
        func wind2body atm (res_x r) h TAS gamma turn_rate aircraft d
        = Ret (d 0 (tr_lin_vel out ++ tr_ang_vel out)
                 (fst (mass_and_inertial_data aircraft))
                 (snd (mass_and_inertial_data aircraft))
                 (fst (get_forces_and_moments aircraft TAS
                         (snd (fst (atm h))) (tr_alpha out) (tr_beta out)
                         (tv_delta_e (res_x r)) 0 (tv_delta_ail (res_x r))
                         (tv_delta_r (res_x r)) (tv_delta_t (res_x r))
                         [tr_theta out; tr_phi out; 0]))
                 (snd (get_forces_and_moments aircraft TAS
                         (snd (fst (atm h))) (tr_alpha out) (tr_beta out)
                         (tv_delta_e (res_x r)) 0 (tv_delta_ail (res_x r))
                         (tv_delta_r (res_x r)) (tv_delta_t (res_x r))
                         [tr_theta out; tr_phi out; 0]))).
Proof.
  intros aircraft h TAS gamma turn_rate dyn_eqs verbose ls ws ws' out H.
  apply run_trim_returns in H. destruct H as [_ [r [Hls Hrec]]].
  exists r. split; [exact Hls | ].
  unfold reconstruct in Hrec. cbv zeta in Hrec.
  apply bind_Ret_inv in Hrec. destruct Hrec as [phi [Hphi Hrec]].
  apply bind_Ret_inv in Hrec. destruct Hrec as [theta [Htheta Hrec]].
  match type of Hrec with
  | Ret ?t = Ret _ => assert (E : out = t) by congruence
  end.
  rewrite E; clear E Hrec.
  cbn [tr_control_vector tr_lin_vel tr_ang_vel tr_alpha tr_beta tr_theta
       tr_phi].
  split; [reflexivity | ].
  intros d. unfold func. cbv zeta.
  rewrite Hphi. cbn [bind]. rewrite Htheta. cbn [bind].
  destruct (atm h) as [[[T p] rho] a].
  destruct (get_forces_and_moments _ _ _ _ _ _ _ _ _ _ _)
    as [forces moments].
  destruct (mass_and_inertial_data aircraft) as [mass inertia].
  reflexivity.
Qed.

End SolverConsistency.

(** * Anemometry *)

Lemma sum_squares_nonneg (u v w : R) : 0 <= u ^ 2 + v ^ 2 + w ^ 2.
Proof.
  pose proof (pow2_ge_0 u). pose proof (pow2_ge_0 v).
  pose proof (pow2_ge_0 w). lra.
Qed.

Lemma pow2_pos (x : R) : x <> 0 -> 0 < x ^ 2.
Proof.
  intros Hx. pose proof (pow2_ge_0 x). pose proof (pow_nonzero x 2 Hx). lra.
Qed.

Lemma norm_pos (u v w : R) : u <> 0 -> 0 < sqrt (u ^ 2 + v ^ 2 + w ^ 2).
Proof.
  intros Hu. apply sqrt_lt_R0.
  pose proof (pow2_ge_0 v). pose proof (pow2_ge_0 w).
  assert (0 < u ^ 2) by (apply pow2_pos; exact Hu). lra.
Qed.

Lemma norm_sqr (u v w : R) :
  sqrt (u ^ 2 + v ^ 2 + w ^ 2) * sqrt (u ^ 2 + v ^ 2 + w ^ 2)
  = u ^ 2 + v ^ 2 + w ^ 2.
Proof. apply sqrt_sqrt, sum_squares_nonneg. Qed.

(** The sideslip ratio v / TAS is in [-1, 1]. *)
Lemma sideslip_ratio_bound (u v w : R) :
  u <> 0 -> -1 <= v / sqrt (u ^ 2 + v ^ 2 + w ^ 2) <= 1.
Proof.
  intros Hu. set (T := sqrt (u ^ 2 + v ^ 2 + w ^ 2)).
  assert (HT : 0 < T) by (apply norm_pos; exact Hu).
  pose proof (norm_sqr u v w) as HTT. fold T in HTT.
  pose proof (pow2_ge_0 u). pose proof (pow2_ge_0 w).
  assert (Hv : - T <= v <= T) by (split; nra).
  split.
  - apply Rmult_le_reg_r with T; [exact HT | ].
    unfold Rdiv. rewrite Rmult_assoc, Rinv_l; lra.
  - apply Rmult_le_reg_r with T; [exact HT | ].
    unfold Rdiv. rewrite Rmult_assoc, Rinv_l; lra.
Qed.

(** What [calculate_alpha_beta_TAS] computes, test by test. *)
Lemma calculate_alpha_beta_TAS_cases (u v w : R) :
  calculate_alpha_beta_TAS u v w =
  let TAS := sqrt (u ^ 2 + v ^ 2 + w ^ 2) in
  if Req_dec_T u 0 then Raise float_division_by_zero
  else Ret (atan (w / u), asin (v / TAS), TAS).
Proof.
  unfold calculate_alpha_beta_TAS, py_sqrt, py_div, py_asin. cbv zeta.
  destruct (Rlt_dec (u ^ 2 + v ^ 2 + w ^ 2) 0) as [H | _];
    [pose proof (sum_squares_nonneg u v w); lra | ].
  cbn [bind].
  destruct (Req_dec_T u 0) as [Hu | Hu]; [reflexivity | ].
  cbn [bind].
  destruct (Req_dec_T (sqrt (u ^ 2 + v ^ 2 + w ^ 2)) 0) as [H | _];
    [pose proof (norm_pos u v w Hu); lra | ].
  cbn [bind].
  destruct (Rlt_dec 1 (Rabs _)) as [H | _]; [ | reflexivity].
  pose proof (sideslip_ratio_bound u v w Hu) as Hb.
  apply Rabs_le in Hb. lra.
Qed.

(** X12: what [calculate_alpha_beta_TAS] returns is in range: the speed
    is positive, the angle of attack strictly and the sideslip angle
    weakly within -pi/2 and pi/2. *)
Theorem calculate_alpha_beta_TAS_ranges :
  forall (u v w alpha beta TAS : R),
    calculate_alpha_beta_TAS u v w = Ret (alpha, beta, TAS) ->
    0 < TAS /\
    - (PI / 2) < alpha < PI / 2 /\
    - (PI / 2) <= beta <= PI / 2.
Proof.
  intros u v w alpha beta TAS.
  rewrite calculate_alpha_beta_TAS_cases. cbv zeta.
  destruct (Req_dec_T u 0) as [Hu | Hu]; [discriminate | ].
  intros H.
  assert (Ha : alpha = atan (w / u)) by congruence.
  assert (Hb : beta = asin (v / sqrt (u ^ 2 + v ^ 2 + w ^ 2)))
    by congruence.
  assert (HT : TAS = sqrt (u ^ 2 + v ^ 2 + w ^ 2)) by congruence.
  rewrite Ha, Hb, HT.
  split; [apply norm_pos; exact Hu | ].
  split; [apply atan_range | apply asin_bound].
Qed.

(** X13: round trip.  For a forward velocity (u > 0) the angles and the
    speed returned give the velocity back through the wind to body
    rotation: u = TAS cos(alpha) cos(beta), v = TAS sin(beta),
    w = TAS sin(alpha) cos(beta). *)
Theorem calculate_alpha_beta_TAS_round_trip :
  forall (u v w alpha beta TAS : R),
    0 < u ->
    calculate_alpha_beta_TAS u v w = Ret (alpha, beta, TAS) ->
    TAS * cos alpha * cos beta = u /\
    TAS * sin beta = v /\
    TAS * sin alpha * cos beta = w.
Proof.
  intros u v w alpha beta TAS Hu.
  rewrite calculate_alpha_beta_TAS_cases. cbv zeta.
  destruct (Req_dec_T u 0) as [H0 | Hu0]; [lra | ].
  intros H. injection H as <- <- <-.
  set (T := sqrt (u ^ 2 + v ^ 2 + w ^ 2)) in *.
  assert (HT : 0 < T) by (apply norm_pos; exact Hu0).
  pose proof (norm_sqr u v w) as HTT. fold T in HTT.
  pose proof (sideslip_ratio_bound u v w Hu0) as Hb. fold T in Hb.
  set (S := sqrt (u ^ 2 + w ^ 2)).
  assert (HS : 0 < S).
  { apply sqrt_lt_R0. pose proof (pow2_ge_0 w).
    assert (0 < u ^ 2) by (apply pow2_pos; lra). lra. }
  assert (HSS : S * S = u ^ 2 + w ^ 2).
  { apply sqrt_sqrt. pose proof (pow2_ge_0 u). pose proof (pow2_ge_0 w).
    lra. }
  assert (Hcb : cos (asin (v / T)) = S / T).
  { rewrite cos_asin by exact Hb. apply sqrt_lem_1.
    - unfold Rsqr. pose proof (Rle_0_sqr (v / T)) as Hq. unfold Rsqr in Hq.
      destruct Hb as [Hb1 Hb2].
      assert (Hq' : v / T * (v / T) <= 1) by nra. lra.
    - apply Rlt_le, Rdiv_lt_0_compat; assumption.
    - unfold Rsqr.
      replace (S / T * (S / T)) with (S * S / (T * T)) by (field; lra).
      replace (1 - v / T * (v / T)) with ((T * T - v * v) / (T * T))
        by (field; lra).
      rewrite HSS, HTT. unfold Rdiv. f_equal. ring. }
  assert (Hsq : sqrt (1 + (w / u)²) = S / u).
  { apply sqrt_lem_1.
    - pose proof (Rle_0_sqr (w / u)). lra.
    - apply Rlt_le, Rdiv_lt_0_compat; assumption.
    - unfold Rsqr.
      replace (S / u * (S / u)) with (S * S / (u * u)) by (field; lra).
      rewrite HSS. field. lra. }
  assert (Hca : cos (atan (w / u)) = u / S).
  { rewrite cos_atan, Hsq. field. lra. }
  assert (Hsa : sin (atan (w / u)) = w / S).
  { rewrite sin_atan, Hsq. field. lra. }
  change (sqrt (u * (u * 1) + v * (v * 1) + w * (w * 1))) with T.
  rewrite Hcb, Hca, Hsa, sin_asin by exact Hb.
  repeat split; field; lra.
Qed.

(** X14: the direction of flight is lost.  The velocity reversed along x
    and z has the same angle of attack, sideslip angle and speed (and the
    same error): the angle of attack is an arctangent of w / u, not a
    two-argument one. *)
Theorem calculate_alpha_beta_TAS_reversed :
  forall (u v w : R),
    calculate_alpha_beta_TAS (- u) v (- w) = calculate_alpha_beta_TAS u v w.
Proof.
  intros u v w. rewrite !calculate_alpha_beta_TAS_cases. cbv zeta.
  replace ((- u) ^ 2) with (u ^ 2) by ring.
  replace ((- w) ^ 2) with (w ^ 2) by ring.
  destruct (Req_dec_T (- u) 0) as [H1 | H1];
    destruct (Req_dec_T u 0) as [H2 | H2]; try lra; [reflexivity | ].
  replace (- w / - u) with (w / u) by (field; exact H2). reflexivity.
Qed.

(** X15: speed and dynamic pressure.  The dynamic pressure at the speed
    that [calculate_alpha_beta_TAS] returns is rho (u^2 + v^2 + w^2) / 2,
    and it is not negative for a density that is not. *)
Theorem dynamic_pressure_of_body_velocity :
  forall (rho u v w alpha beta TAS : R),
    calculate_alpha_beta_TAS u v w = Ret (alpha, beta, TAS) ->
    calculate_dynamic_pressure rho TAS = rho * (u ^ 2 + v ^ 2 + w ^ 2) / 2 /\
    (0 <= rho -> 0 <= calculate_dynamic_pressure rho TAS).
Proof.
  intros rho u v w alpha beta TAS.
  rewrite calculate_alpha_beta_TAS_cases. cbv zeta.
  destruct (Req_dec_T u 0) as [H0 | Hu0]; [discriminate | ].
  intros H.
  assert (HT : TAS = sqrt (u ^ 2 + v ^ 2 + w ^ 2)) by congruence.
  unfold calculate_dynamic_pressure.
  pose proof (sum_squares_nonneg u v w) as Hn.
  rewrite HT, pow2_sqrt by exact Hn.
  split; [lra | intros Hr; nra].
Qed.

Lemma Rpower_three_halves (x : R) : 0 < x -> Rpower x (3 / 2) = x * sqrt x.
Proof.
  intros Hx. replace (3 / 2) with (1 + / 2) by field.
  rewrite Rpower_plus, Rpower_1, Rpower_sqrt by exact Hx. reflexivity.
Qed.

(** t sqrt(t) / (t + b) grows with t. *)
Lemma sutherland_ratio_increasing (b x y : R) :
  0 < b -> 0 < x < y ->
  x * sqrt x / (x + b) < y * sqrt y / (y + b).
Proof.
  intros Hb [Hx Hxy].
  assert (Hy : 0 < y) by lra.
  pose proof (sqrt_lt_R0 x Hx) as Hs. pose proof (sqrt_lt_R0 y Hy) as Hr.
  assert (Hsr : sqrt x < sqrt y) by (apply sqrt_lt_1; lra).
  pose proof (sqrt_sqrt x (Rlt_le _ _ Hx)) as Hss.
  pose proof (sqrt_sqrt y (Rlt_le _ _ Hy)) as Hrr.
  set (s := sqrt x) in *. set (r := sqrt y) in *.
  rewrite <- Hss, <- Hrr.
  assert (Hs2 : 0 < s * s) by nra. assert (Hr2 : 0 < r * r) by nra.
  apply Rmult_lt_reg_r with ((s * s + b) * (r * r + b)); [nra | ].
  replace (s * s * s / (s * s + b) * ((s * s + b) * (r * r + b)))
    with (s * s * s * (r * r + b)) by (field; lra).
  replace (r * r * r / (r * r + b) * ((s * s + b) * (r * r + b)))
    with (r * r * r * (s * s + b)) by (field; lra).
  assert (H1 : s * s * s * (r * r) < r * r * r * (s * s)).
  { replace (s * s * s * (r * r)) with (s * s * (r * r) * s) by ring.
    replace (r * r * r * (s * s)) with (s * s * (r * r) * r) by ring.
    apply Rmult_lt_compat_l; [nra | exact Hsr]. }
  assert (H2 : s * s * s < r * r * r).
  { apply Rlt_trans with (s * s * r).
    - apply Rmult_lt_compat_l; assumption.
    - apply Rmult_lt_compat_r; [assumption | nra]. }
  nra.
Qed.

(** X16: Sutherland's viscosity is positive and grows with the temperature,
    for positive temperatures. *)
Theorem viscosity_increases_with_temperature :
  forall (T1 T2 : R),
    0 < T1 < T2 ->
    0 < calculate_viscosity_Sutherland T1
      < calculate_viscosity_Sutherland T2.
Proof.
  intros T1 T2 [H1 H12].
  unfold calculate_viscosity_Sutherland. cbv zeta.
  assert (Hx : 0 < T1 / 273.1) by (apply Rdiv_lt_0_compat; lra).
  assert (Hxy : T1 / 273.1 < T2 / 273.1)
    by (unfold Rdiv; apply Rmult_lt_compat_r; lra).
  set (x := T1 / 273.1) in *. set (y := T2 / 273.1) in *.
  assert (Hy : 0 < y) by lra.
  rewrite !Rpower_three_halves by assumption.
  pose proof (sutherland_ratio_increasing 0.4042 x y) as Hinc.
  assert (Hpos : 0 < x * sqrt x / (x + 0.4042)).
  { apply Rdiv_lt_0_compat; [ | lra].
    apply Rmult_lt_0_compat; [exact Hx | apply sqrt_lt_R0; exact Hx]. }
  replace (1.176 * 1e-5 * (x * sqrt x) * ((1 + 0.4042) / (x + 0.4042)))
    with (1.176 * 1e-5 * (1 + 0.4042) * (x * sqrt x / (x + 0.4042)))
    by (field; lra).
  replace (1.176 * 1e-5 * (y * sqrt y) * ((1 + 0.4042) / (y + 0.4042)))
    with (1.176 * 1e-5 * (1 + 0.4042) * (y * sqrt y / (y + 0.4042)))
    by (field; lra).
  assert (Hc : 0 < 1.176 * 1e-5 * (1 + 0.4042)) by lra.
  assert (Hlt : x * sqrt x / (x + 0.4042) < y * sqrt y / (y + 0.4042))
    by (apply Hinc; lra).
  split; [apply Rmult_lt_0_compat; assumption | ].
  apply Rmult_lt_compat_l; assumption.
Qed.

(** * The ball *)

Lemma Re_list_first : nth 0 Re_list 0 = 38000.
Proof. reflexivity. Qed.

Lemma Re_list_last : last Re_list 0 = 4000000.
Proof. reflexivity. Qed.

Lemma Sn_list_first : nth 0 Sn_list 0 = 0.00.
Proof. reflexivity. Qed.

Lemma Sn_list_last : last Sn_list 0 = 0.40.
Proof. reflexivity. Qed.

Lemma mu_pos : 0 < 1.983 * / 10 ^ 5.
Proof.
  apply Rmult_lt_0_compat; [lra | ].
  apply Rinv_0_lt_compat, pow_lt. lra.
Qed.

Section BallProperties.

Variable np_interp : R -> list R -> list R -> R.


(** Past the Reynolds test the speed is positive when the radius is not
    negative. *)
Lemma speed_pos_of_Reynolds (rho V radius : R) :
  0 <= V -> ~ rho * V * radius / (1.983 * / 10 ^ 5) < 38000 -> 0 < V.
Proof.
  intros HV H. destruct (Req_dec_T V 0) as [H0 | H0]; [ | lra].
  exfalso. apply H. rewrite H0. unfold Rdiv.
  rewrite Rmult_0_r, !Rmult_0_l. lra.
Qed.

(** X18: the error of the negative spin numbers is never raised for a
    radius that is not negative: past the Reynolds test the speed is
    positive, and the effective spin number is not negative. *)
Theorem Ball_forces_spin_number_not_negative :
  forall (velocity_vector : R * R * R * R * R * R) (rho radius : R),
    0 <= radius ->
    Ball_forces np_interp velocity_vector rho radius
    <> Raise (ValueError "Effective Spin number cannot be less than 0.").
Proof.
  intros [[[[[u v] w] p] q] r] rho radius Hr.
  unfold Ball_forces. cbv zeta.
  rewrite Re_list_first, Re_list_last, Sn_list_first, Sn_list_last.
  set (V := sqrt (u ^ 2 + v ^ 2 + w ^ 2)).
  set (wn := sqrt ((v * r - w * q) ^ 2 + (w * p - u * r) ^ 2
                   + (u * q - v * p) ^ 2)).
  destruct (Rlt_dec _ 38000) as [ | HRe]; [discriminate | ].
  destruct (Rlt_dec 4000000 _); [discriminate | ].
  cbn [bind].
  assert (HV : 0 < V)
    by (apply (speed_pos_of_Reynolds rho V radius);
        [apply sqrt_pos | exact HRe]).
  assert (Hwn : 0 <= wn) by apply sqrt_pos.
  destruct (Rlt_dec (wn * radius / V) 0.00) as [HSn | _].
  - exfalso.
    assert (0 <= wn * radius / V); [ | lra].
    apply Rmult_le_pos; [apply Rmult_le_pos; assumption | ].
    apply Rlt_le, Rinv_0_lt_compat, HV.
  - destruct (Rlt_dec 0.40 _); discriminate.
Qed.


(** X20: no Magnus force without spin across the velocity.  When the spin
    is zero or along the velocity, a call that returns gives a force vector
    of three values that are not numbers: the direction is 0 / 0. *)
Theorem Ball_forces_without_cross_spin :
  forall (u v w p q r rho radius : R) (res : BallForces),
    v * r - w * q = 0 -> w * p - u * r = 0 -> u * q - v * p = 0 ->
    Ball_forces np_interp (u, v, w, p, q, r) rho radius = Ret res ->
    bf_F_magnus_vector_body res = [None; None; None] /\
    bf_Fx_magnus_body res = None /\
    bf_Fy_magnus_body res = None /\
    bf_Fz_magnus_body res = None.
Proof.
  intros u v w p q r rho radius res H1 H2 H3.
  unfold Ball_forces. cbv zeta. rewrite H1, H2, H3.
  replace (0 ^ 2 + 0 ^ 2 + 0 ^ 2) with 0 by ring. rewrite sqrt_0.
  intros H.
  apply bind_Ret_inv in H. destruct H as [Cd [_ H]].
  apply bind_Ret_inv in H. destruct H as [C_magnus [_ H]].
  match type of H with
  | Ret ?t = Ret _ => assert (E : res = t) by congruence
  end.
  rewrite E; clear E H.
  unfold np_div. cbn [map].
  destruct (Req_dec_T 0 0) as [_ | H0]; [ | contradiction].
  repeat split.
Qed.

End BallProperties.

(** X21: [np.interp] takes increasing abscissas.  The spin numbers of the
    lift table are increasing; the Reynolds numbers of the drag table are
    not: 800000 is followed by 200000, where the table of the docstring has
    2000000. *)
Theorem Re_list_not_increasing :
  nth 12 Re_list 0 < nth 11 Re_list 0 /\
  (forall i j, (i < j < List.length Sn_list)%nat ->
               nth i Sn_list 0 < nth j Sn_list 0) /\
  ~ (forall i j, (i < j < List.length Re_list)%nat ->
                 nth i Re_list 0 < nth j Re_list 0).
Proof.
  split; [simpl; lra | ]. split.
  - intros i j [Hij Hj]. simpl in Hj.
    destruct j as [ | [ | [ | [ | [ | j]]]]]; try lia;
      destruct i as [ | [ | [ | [ | i]]]]; try lia; simpl; lra.
  - intros H. specialize (H 11%nat 12%nat). simpl in H.
    assert (Hlt : 800000 < 200000) by (apply H; lia). lra.
Qed.

(** * The further theorems at concrete inputs *)

Lemma full_throttle_within_bounds :
  within_bounds lower_bounds upper_bounds full_throttle.
Proof.
  unfold within_bounds, lower_bounds, upper_bounds, full_throttle. simpl.
  repeat split; lra.
Qed.

Lemma level_flight_moderate : sin 0 ^ 2 < (cos 1 * cos (1 / 2)) ^ 2.
Proof.
  rewrite sin_0. pose proof cos_one_pos. pose proof cos_half_pos.
  assert (0 < cos 1 * cos (1 / 2)) by (apply Rmult_lt_0_compat; lra).
  nra.
Qed.


Lemma shallow_climb_angles :
  - (PI / 2) < 0.05 < PI / 2 /\
  - (PI / 2) < 0.1 + 0.05 < PI / 2.
Proof. pose proof PI_lower_bound. repeat split; lra. Qed.

(** A shallow climb, gamma = 0.05 and alpha = 0.1, with the wings level:
    [rate_of_climb_cons] is in its domain. *)
Lemma shallow_climb_in_domain :
  ~ rate_of_climb_domain_violation 0.05 0.1 0 0.
Proof.
  pose proof PI_lower_bound.
  unfold rate_of_climb_domain_violation. cbv zeta. rewrite sin_0, cos_0.
  assert (Hcg : 0 < cos 0.05) by (apply cos_gt_0; lra).
  assert (Hcp : 0 < cos (0.1 + 0.05)) by (apply cos_gt_0; lra).
  assert (Hcm : 0 < cos (0.1 - 0.05)) by (apply cos_gt_0; lra).
  pose proof (cos_sq_minus_sin_sq 0.1 0.05) as Hd.
  pose proof (sin2_cos2 0.1) as Ha. pose proof (sin2_cos2 0.05) as Hsg.
  unfold Rsqr in Ha, Hsg.
  assert (0 < cos (0.1 + 0.05) * cos (0.1 - 0.05))
    by (apply Rmult_lt_0_compat; assumption).
  intros [Hv | Hv]; nra.
Qed.

(** X4 in the shallow climb. *)
Lemma wings_level_pitch_is_alpha_plus_gamma_witness :
  exists theta,
    rate_of_climb_cons 0.05 0.1 0 0 = Ret theta /\ theta = 0.1 + 0.05.
Proof.
  destruct (proj2 (rate_of_climb_cons_outcome 0.05 0.1 0 0)
              shallow_climb_in_domain) as [theta Htheta].
  exists theta. split; [exact Htheta | ].
  exact (wings_level_pitch_is_alpha_plus_gamma 0.05 0.1 theta
           (proj1 shallow_climb_angles) (proj2 shallow_climb_angles) Htheta).
Defined.

(** X6 at full throttle, in level flight. *)
Lemma func_defined_on_box_witness :
  exists output,
    func example_wind2body example_atm full_throttle 1000 100 0 0
      example_aircraft example_dynamics = Ret output.
Proof.
  exact (func_defined_on_box example_wind2body example_atm full_throttle
           1000 100 0 0 example_aircraft example_dynamics
           Rabs_zero_small level_flight_moderate
           full_throttle_within_bounds).
Defined.

(** X7 at the sample solve. *)
Lemma trim_returns_without_turn_witness :
  exists out ws',
    run (terminate_at full_throttle)
      (steady_state_flight_trim example_wind2body example_atm
         example_dynamics example_aircraft 1000 100 0 0 None 0) []
    = (inr out, ws') /\
    tr_phi out = 0.
Proof.
  exact (trim_returns_without_turn example_wind2body example_atm
           example_dynamics example_aircraft 1000 100 0 0 0%Z
           (terminate_at full_throttle) [] _
           Rabs_zero_small level_flight_moderate
           (example_optimizer_result 100 0 0 _ _)
           full_throttle_within_bounds).
Defined.

(** X8 at the sample solve in a level turn. *)
Lemma returned_attitude_short_of_vertical_witness :
  - (PI / 2) < atan (0.05 * 120 / 9.81) < PI / 2 /\
  - (PI / 2) < 0 < PI / 2 /\
  0 < cos 0 /\
  Rabs (- (0.05) * sin 0) <= Rabs 0.05.
Proof.
  exact (returned_attitude_short_of_vertical example_wind2body example_atm
           example_dynamics example_aircraft 1000 120 0 0.05 None 0%Z
           (terminate_at full_throttle) [] [] _ example_turn_run).
Defined.

(** X9: an optimizer that ends at full throttle and reports another
    residual and another cost. *)
Lemma outcome_depends_on_trimmed_params_only_witness :
  fst (run (terminate_at full_throttle)
         (steady_state_flight_trim example_wind2body example_atm
            example_dynamics example_aircraft 1000 100 0 0 None 0) [])
  = fst (run (report_at full_throttle [1; 0; 0; 0; 0; 0] 7)
           (steady_state_flight_trim example_wind2body example_atm
              example_dynamics example_aircraft 1000 100 0 0 None 0) []).
Proof.
  exact (outcome_depends_on_trimmed_params_only example_wind2body
           example_atm example_dynamics example_aircraft 1000 100 0 0 0%Z
           (terminate_at full_throttle)
           (report_at full_throttle [1; 0; 0; 0; 0; 0] 7) [] [] _ _
           (example_optimizer_result 100 0 0 _ _) eq_refl eq_refl).
Defined.

Lemma example_supplied_run :
  run (terminate_at full_throttle)
    (steady_state_flight_trim example_wind2body example_atm example_dynamics
       example_aircraft 1000 100 0 0 (Some example_dynamics) 0) []
  = (inl (UnboundLocalError "dynamic_eqs"), []).
Proof. rewrite trim_supplied. reflexivity. Qed.

(** X10 at a call that supplies dynamics. *)
Lemma trim_exceptions_witness :
  (Some example_dynamics <> None /\
   UnboundLocalError "dynamic_eqs" = UnboundLocalError "dynamic_eqs" /\
   @nil warning = []) \/
  (Some example_dynamics = None /\
   terminate_at full_throttle
     (fun x =>
        fst (run (terminate_at full_throttle)
               (func example_wind2body example_atm x 1000 100 0 0
                  example_aircraft example_dynamics) []))
     (initial_guess 0 0) 0%Z (lower_bounds, upper_bounds)
   = inl (UnboundLocalError "dynamic_eqs") /\ @nil warning = []) \/
  (Some example_dynamics = None /\
   (UnboundLocalError "dynamic_eqs" = ValueError "math domain error" \/
    UnboundLocalError "dynamic_eqs"
    = ZeroDivisionError "float division by zero")).
Proof.
  exact (trim_exceptions example_wind2body example_atm example_dynamics
           example_aircraft 1000 100 0 0 (Some example_dynamics) 0%Z
           (terminate_at full_throttle) [] [] _ example_supplied_run).
Defined.

(** X11 at the sample solve. *)
Lemma no_turn_no_bank_witness :
  0 = 0 /\
  [- 0 * sin 0; 0 * sin 0 * cos 0; 0 * cos 0 * sin 0]
  = [- 0 * sin 0; 0; 0].
Proof.
  exact (no_turn_no_bank example_wind2body example_atm example_dynamics
           example_aircraft 1000 100 0 0 None 0%Z
           (terminate_at full_throttle) [] [] _
           Rabs_zero_small (example_run 100)).
Defined.

(** X22 at the sample solve in a level turn. *)
Lemma residual_at_returned_state_witness :
  exists r : OptimizeResult,
    terminate_at full_throttle
      (fun x =>
         fst (run (terminate_at full_throttle)
                (func example_wind2body example_atm x 1000 120 0 0.05
                   example_aircraft example_dynamics) []))
      (initial_guess 0 0.05) 0%Z (lower_bounds, upper_bounds)
    = inr r /\
    (0, 0, 0, 1)
    = (tv_delta_e (res_x r), tv_delta_ail (res_x r),
       tv_delta_r (res_x r), tv_delta_t (res_x r)).
Proof.
  destruct (residual_at_returned_state example_wind2body example_atm
              example_dynamics example_aircraft 1000 120 0 0.05 None 0%Z
              (terminate_at full_throttle) [] [] _ example_turn_run)
    as [r [Hls [Hc _]]].
  exists r. split; assumption.
Defined.

(** The velocity (3, 0, 4): a speed of 5 at an incidence atan(4/3). *)
Lemma calculate_alpha_beta_TAS_example :
  calculate_alpha_beta_TAS 3 0 4
  = Ret (atan (4 / 3), asin (0 / sqrt (3 ^ 2 + 0 ^ 2 + 4 ^ 2)),
         sqrt (3 ^ 2 + 0 ^ 2 + 4 ^ 2)).
Proof.
  rewrite calculate_alpha_beta_TAS_cases. cbv zeta.
  destruct (Req_dec_T 3 0) as [H | _]; [lra | reflexivity].
Qed.

(** X12 at the velocity (3, 0, 4). *)
Lemma calculate_alpha_beta_TAS_ranges_witness :
  0 < sqrt (3 ^ 2 + 0 ^ 2 + 4 ^ 2) /\
  - (PI / 2) < atan (4 / 3) < PI / 2 /\
  - (PI / 2) <= asin (0 / sqrt (3 ^ 2 + 0 ^ 2 + 4 ^ 2)) <= PI / 2.
Proof.
  exact (calculate_alpha_beta_TAS_ranges 3 0 4 _ _ _
           calculate_alpha_beta_TAS_example).
Defined.

Lemma three_pos : 0 < 3.
Proof. lra. Qed.

(** X13 at the velocity (3, 0, 4). *)
Lemma calculate_alpha_beta_TAS_round_trip_witness :
  sqrt (3 ^ 2 + 0 ^ 2 + 4 ^ 2) * cos (atan (4 / 3))
  * cos (asin (0 / sqrt (3 ^ 2 + 0 ^ 2 + 4 ^ 2))) = 3 /\
  sqrt (3 ^ 2 + 0 ^ 2 + 4 ^ 2)
  * sin (asin (0 / sqrt (3 ^ 2 + 0 ^ 2 + 4 ^ 2))) = 0 /\
  sqrt (3 ^ 2 + 0 ^ 2 + 4 ^ 2) * sin (atan (4 / 3))
  * cos (asin (0 / sqrt (3 ^ 2 + 0 ^ 2 + 4 ^ 2))) = 4.
Proof.
  exact (calculate_alpha_beta_TAS_round_trip 3 0 4 _ _ _ three_pos
           calculate_alpha_beta_TAS_example).
Defined.

(** X15 at the velocity (3, 0, 4), in air at sea level. *)
Lemma dynamic_pressure_of_body_velocity_witness :
  calculate_dynamic_pressure 1.225 (sqrt (3 ^ 2 + 0 ^ 2 + 4 ^ 2))
  = 1.225 * (3 ^ 2 + 0 ^ 2 + 4 ^ 2) / 2.
Proof.
  exact (proj1 (dynamic_pressure_of_body_velocity 1.225 3 0 4 _ _ _
                  calculate_alpha_beta_TAS_example)).
Defined.

Lemma two_temperatures : 0 < 273.1 < 300.
Proof. lra. Qed.

(** X16 between 273.1 K and 300 K. *)
Lemma viscosity_increases_with_temperature_witness :
  0 < calculate_viscosity_Sutherland 273.1
    < calculate_viscosity_Sutherland 300.
Proof.
  exact (viscosity_increases_with_temperature 273.1 300 two_temperatures).
Defined.

Lemma radius_nonneg : 0 <= 0.111.
Proof. lra. Qed.

(** X18 for the ball of [Geometric_Data]. *)
Lemma Ball_forces_spin_number_not_negative_witness :
  Ball_forces example_interp (20, 0, 0, 0, 0, 2) 1.225 0.111
  <> Raise (ValueError "Effective Spin number cannot be less than 0.").
Proof.
  exact (Ball_forces_spin_number_not_negative example_interp
           (20, 0, 0, 0, 0, 2) 1.225 0.111 radius_nonneg).
Defined.

Lemma sqrt_400 : sqrt (20 ^ 2 + 0 ^ 2 + 0 ^ 2) = 20.
Proof. apply sqrt_lem_1; lra. Qed.

Lemma Reynolds_example :
  ~ 1.225 * 20 * 0.111 / (1.983 * / 10 ^ 5) < 38000 /\
  ~ 4000000 < 1.225 * 20 * 0.111 / (1.983 * / 10 ^ 5).
Proof.
  replace (1.225 * 20 * 0.111 / (1.983 * / 10 ^ 5))
    with (1.225 * 20 * 0.111 * 10 ^ 5 / 1.983) by (field; lra).
  split; lra.
Qed.

(** A ball at 20 m/s along x, in air at sea level, with a spin of 2 rad/s
    about z, and with no spin: [Ball_forces] returns. *)
Lemma Ball_forces_spinning_returns :
  exists res,
    Ball_forces example_interp (20, 0, 0, 0, 0, 2) 1.225 0.111 = Ret res.
Proof.
  unfold Ball_forces. cbv zeta.
  rewrite Re_list_first, Re_list_last, Sn_list_first, Sn_list_last.
  rewrite sqrt_400.
  destruct Reynolds_example as [H1 H2].
  destruct (Rlt_dec _ 38000) as [H | _]; [contradiction | ].
  destruct (Rlt_dec 4000000 _) as [H | _]; [contradiction | ].
  cbn [bind].
  replace ((0 * 2 - 0 * 0) ^ 2 + (0 * 0 - 20 * 2) ^ 2 + (20 * 0 - 0 * 0) ^ 2)
    with (40 * 40) by ring.
  rewrite sqrt_square by lra.
  destruct (Rlt_dec _ 0.00) as [H | _]; [lra | ].
  destruct (Rlt_dec 0.40 _) as [H | _]; [lra | ].
  cbn [bind]. eexists. reflexivity.
Qed.

Lemma Ball_forces_no_spin_returns :
  exists res,
    Ball_forces example_interp (20, 0, 0, 0, 0, 0) 1.225 0.111 = Ret res.
Proof.
  unfold Ball_forces. cbv zeta.
  rewrite Re_list_first, Re_list_last, Sn_list_first, Sn_list_last.
  rewrite sqrt_400.
  destruct Reynolds_example as [H1 H2].
  destruct (Rlt_dec _ 38000) as [H | _]; [contradiction | ].
  destruct (Rlt_dec 4000000 _) as [H | _]; [contradiction | ].
  cbn [bind].
  replace ((0 * 0 - 0 * 0) ^ 2 + (0 * 0 - 20 * 0) ^ 2 + (20 * 0 - 0 * 0) ^ 2)
    with 0 by ring.
  rewrite sqrt_0.
  destruct (Rlt_dec _ 0.00) as [H | _]; [lra | ].
  destruct (Rlt_dec 0.40 _) as [H | _]; [lra | ].
  cbn [bind]. eexists. reflexivity.
Qed.

Lemma cross_spin_example :
  (0 * 2 - 0 * 0) ^ 2 + (0 * 0 - 20 * 2) ^ 2 + (20 * 0 - 0 * 0) ^ 2 <> 0.
Proof. lra. Qed.


(** X20 for the ball without spin. *)
Lemma Ball_forces_without_cross_spin_witness :
  exists res,
    Ball_forces example_interp (20, 0, 0, 0, 0, 0) 1.225 0.111 = Ret res /\
    bf_F_magnus_vector_body res = [None; None; None].
Proof.
  destruct Ball_forces_no_spin_returns as [res Hres].
  exists res. split; [exact Hres | ].
  refine (proj1 (Ball_forces_without_cross_spin example_interp
                   20 0 0 0 0 0 1.225 0.111 res _ _ _ Hres)); ring.
Defined.
